(** * ichorCNA results summary: a shallow embedding and its properties

    The development follows [scripts/snakemake/ichorCNA_results_summary.py]:
    the two extractors ([extract_tf_data], [extract_cna_data]), the archive
    builders ([create_params_zip], [create_cna_seg_zip]) and [main] with its
    library-name normalisation and pivot step.

    Python strings are modelled as [string] (one [ascii] per character),
    dictionaries as [gmap string _], exceptions as a [Raise] result, and
    everything the script prints or writes as a trace of events. *)

From Stdlib Require Import Ascii.
From stdpp Require Import base option list gmap strings sorting.

Set Warnings "-register-all".

(** ** Python string methods used by the script *)

(** [s.startswith(p)] *)
Definition startswith (s p : string) : bool := String.prefix p s.
Global Arguments startswith : simpl never.

(** [s.endswith(suffix)]: some tail of [s] is [suffix]. *)
Fixpoint endswith (s suffix : string) : bool :=
  if String.eqb s suffix then true
  else match s with
       | EmptyString => false
       | String _ s' => endswith s' suffix
       end.

(** [p in s] for strings: [p] starts at some position of [s]. *)
Fixpoint contains (p s : string) : bool :=
  if startswith s p then true
  else match s with
       | EmptyString => false
       | String _ s' => contains p s'
       end.

(** [s.replace(old, new)] for a non-empty [old]: a left-to-right scan that
    replaces each occurrence and resumes after it; [skip] counts the
    characters of the occurrence still to be passed over. *)
Fixpoint replace_scan (old new : string) (skip : nat) (s : string) : string :=
  match s with
  | EmptyString => EmptyString
  | String c s' =>
      match skip with
      | S k => replace_scan old new k s'
      | O =>
          if startswith s old
          then new +:+ replace_scan old new (String.length old - 1) s'
          else String c (replace_scan old new 0 s')
      end
  end.

(** [s.replace(old, new)] for an empty [old]: [new] goes before every
    character and at the end. *)
Fixpoint replace_empty (new : string) (s : string) : string :=
  match s with
  | EmptyString => new
  | String c s' => new +:+ String c (replace_empty new s')
  end.

Definition replace (s old new : string) : string :=
  match old with
  | EmptyString => replace_empty new s
  | String _ _ => replace_scan old new 0 s
  end.

Global Arguments replace : simpl never.

(** [s.split(sep)] for a one-character separator: never an empty list. *)
Fixpoint split (sep : ascii) (s : string) : list string :=
  match s with
  | EmptyString => [EmptyString]
  | String c s' =>
      if Ascii.eqb c sep then EmptyString :: split sep s'
      else match split sep s' with
           | piece :: pieces => String c piece :: pieces
           | [] => [String c EmptyString]
           end
  end.

(** The characters (code points below 256) for which [str.isspace] holds:
    tab to carriage return, the four separators, space, next line (U+0085)
    and no-break space (U+00A0). *)
Definition isspace (c : ascii) : bool :=
  let n := nat_of_ascii c in
  ((9 <=? n) && (n <=? 13)) || ((28 <=? n) && (n <=? 32)) || (n =? 133) || (n =? 160).

Fixpoint lstrip (s : string) : string :=
  match s with
  | EmptyString => EmptyString
  | String c s' => if isspace c then lstrip s' else s
  end.

Definition rstrip (s : string) : string := String.rev (lstrip (String.rev s)).

(** [s.strip()] *)
Definition strip (s : string) : string := rstrip (lstrip s).

(** ** Exceptions and results *)

Inductive exn :=
| KeyError          (* a requested column is not in the frame *)
| ValueError        (* float() of a non-number, duplicate pivot keys, column clash *)
| TypeError         (* ordering a column that mixes strings and numbers *)
| IndexError
| IsADirectoryError (* open() on a directory *)
| ParserError.      (* pd.read_csv could not read the file *)

Inductive result (A : Type) :=
| Ok (a : A)
| Raise (e : exn).
Arguments Ok {A} a.
Arguments Raise {A} e.

Global Instance result_ret : MRet result := λ A a, Ok a.
Global Instance result_bind : MBind result := λ A B f m,
  match m with
  | Ok a => f a
  | Raise e => Raise e
  end.

(** ** Numbers

    The script never computes with numbers: it parses them ([float]), orders
    them (sorting) and compares them for equality (pivot keys). They are kept
    abstract: [num] stands for the int64 and float64 values pandas holds,
    [nan] for [np.nan], [num_le] for the ascending order [sort_values] puts
    them in, and [float s] for Python's [float(s)], [None] when it raises
    [ValueError]. *)
Class Numbers := {
  num : Type;
  num_eq_dec :: EqDecision num;
  nan : num;
  num_le : relation num;
  num_le_dec :: RelDecision num_le;
  num_le_total :: Total num_le;
  float : string → option num;
}.

Section Model.
Context `{Numbers}.

(** A cell of a data frame: a number (possibly NaN) or a string. *)
Inductive cell :=
| Num (x : num)
| Str (s : string).

(** The missing value, [np.nan]. *)
Definition NaN : cell := Num nan.

Global Instance cell_eq_dec : EqDecision cell.
Proof. solve_decision. Defined.
Global Instance cell_inhabited : Inhabited cell := populate NaN.

Definition is_str (c : cell) : bool :=
  match c with Str _ => true | Num _ => false end.
Definition is_real (c : cell) : bool :=
  match c with Num x => negb (bool_decide (x = nan)) | Str _ => false end.

(** Ascending order of a sorted column, missing values last. *)
Definition cell_le (a b : cell) : Prop :=
  match a, b with
  | Num x, Num y => num_le x y
  | Str s, Str t => String.le s t
  | Num x, Str _ => x ≠ nan
  | Str _, Num y => y = nan
  end.

Global Instance cell_le_dec : RelDecision cell_le.
Proof. intros [x|s] [y|t]; simpl; apply _. Defined.

(** A column can be ordered unless it mixes strings with (non-missing)
    numbers, on which pandas raises [TypeError]. *)
Definition sortable (column : list cell) : bool :=
  negb (existsb is_str column && existsb is_real column).

(** ** Data frames as [pd.read_csv] returns them *)
Record DataFrame := {
  columns : list string;
  rows : list (list cell);
}.

(** Position of a column label ([KeyError] when absent). *)
Fixpoint index_of (name : string) (names : list string) : option nat :=
  match names with
  | [] => None
  | n :: names' => if String.eqb n name then Some 0 else S <$> index_of name names'
  end.

Definition get_loc (df : DataFrame) (name : string) : result nat :=
  match index_of name (columns df) with
  | Some i => Ok i
  | None => Raise KeyError
  end.

(** ** The results directory

    A file is modelled by the two ways the script reads it: the lines that
    iterating over the opened text file yields, and what
    [pd.read_csv(path, sep="\t")] returns for it. A directory is the list
    of its entries in [os.listdir] order. *)
Record file_content := {
  readlines : list string;
  read_csv : result DataFrame;
}.

Inductive node :=
| File (content : file_content)
| Dir (entries : list (string * node)).

Definition isdir (nd : node) : bool :=
  match nd with Dir _ => true | File _ => false end.
Definition isfile (nd : node) : bool :=
  match nd with File _ => true | Dir _ => false end.

(** ** Rows of the long-format segmentation table *)
Record seg_row := {
  library : string;
  chr : cell;
  start : cell;
  end_ : cell;
  logR : cell;
}.

Global Instance seg_row_eq_dec : EqDecision seg_row.
Proof. solve_decision. Defined.

(** A member of a ZIP archive: its name and the file stored under it
    ([None] for a directory entry, which has no data). *)
Record zip_member := {
  arcname : string;
  stored : option file_content;
}.

(** What [main] writes into the output directory. *)
Inductive artifact :=
| TfTable (table : list (gmap string cell))
| LongTable (value_name : string) (table : list seg_row)
| Matrix (matrix : DataFrame)
| ZipFile (members : list zip_member).

(** ** Effects: what is printed and what is written *)
Inductive event :=
| Stdout (msg : string)
| MakeDirs (path : string)
| WriteFile (path : string) (a : artifact).

Definition io (A : Type) : Type := list event * result A.

Global Instance io_ret : MRet io := λ A a, ([], Ok a).
Global Instance io_bind : MBind io := λ A B f m,
  match m with
  | (t, Ok a) => let '(t', r) := f a in (t ++ t', r)
  | (t, Raise e) => (t, Raise e)
  end.

Definition print (msg : string) : io unit := ([Stdout msg], Ok tt).
Definition write_file (path : string) (a : artifact) : io unit := ([WriteFile path a], Ok tt).
Definition lift {A} (r : result A) : io A := ([], r).

(** [for x in xs: body], the loop's variables threaded through as [s]. *)
Fixpoint for_each {A S : Type} (xs : list A) (body : S → A → io S) (s : S) : io S :=
  match xs with
  | [] => mret s
  | x :: xs' => s' ← body s x; for_each xs' body s'
  end.

Fixpoint for_each_result {A S : Type} (xs : list A) (body : S → A → result S) (s : S) : result S :=
  match xs with
  | [] => mret s
  | x :: xs' => s' ← body s x; for_each_result xs' body s'
  end.

(** The first entry of a directory listing whose name ends in [suffix]:
    the search loop that stops at its first hit. *)
Fixpoint first_with_suffix (suffix : string) (entries : list (string * node)) : option (string * node) :=
  match entries with
  | [] => None
  | (file_name, nd) :: rest =>
      if endswith file_name suffix then Some (file_name, nd)
      else first_with_suffix suffix rest
  end.

(** ** [extract_tf_data] *)

(** [line.split(":")[1].strip()] *)
Definition value_of (line : string) : result string :=
  match split ":"%char line !! 1%nat with
  | Some v => Ok (strip v)
  | None => Raise IndexError
  end.

(** [float(value) if value != 'NA' else np.nan] *)
Definition float_or_nan (value : string) : result cell :=
  if String.eqb value "NA" then Ok NaN
  else match float value with
       | Some x => Ok (Num x)
       | None => Raise ValueError
       end.

(** The body of the loop over the lines of a parameter file. *)
Definition scan_line (data : gmap string cell) (raw : string) : result (gmap string cell) :=
  let line := strip raw in
  if contains "Gender:" line then
    v ← value_of line; Ok (<["gender" := Str v]> data)
  else if contains "Tumor Fraction:" line then
    value ← value_of line; x ← float_or_nan value; Ok (<["tumor_fraction" := x]> data)
  else if contains "Ploidy:" line then
    value ← value_of line; x ← float_or_nan value; Ok (<["ploidy" := x]> data)
  else if contains "ChrY coverage fraction:" line then
    value ← value_of line; x ← float_or_nan value; Ok (<["ChrY_coverage_fraction" := x]> data)
  else if contains "ChrX median log ratio:" line then
    value ← value_of line; x ← float_or_nan value; Ok (<["ChrX_median_log_ratio" := x]> data)
  else Ok data.

(** [open(path, "r")] and the loop over its lines. *)
Definition read_params (sample_folder : string) (nd : node) : result (gmap string cell) :=
  match nd with
  | Dir _ => Raise IsADirectoryError
  | File content => for_each_result (readlines content) scan_line {["library" := Str sample_folder]}
  end.

Definition tf_columns : list string :=
  ["library"; "tumor_fraction"; "ploidy"; "gender"; "ChrY_coverage_fraction"; "ChrX_median_log_ratio"].

(** A row of [pd.DataFrame(data_list, columns=columns)]: the listed columns
    only, NaN where the dictionary has no such key. *)
Definition frame_row (columns : list string) (data : gmap string cell) : gmap string cell :=
  list_to_map ((λ c, (c, default NaN (data !! c))) <$> columns).

(** [df.sort_values(name)] on rows held as dictionaries. *)
Definition le_by (name : string) (r1 r2 : gmap string cell) : Prop :=
  cell_le (r1 !!! name) (r2 !!! name).

Global Instance le_by_dec name : RelDecision (le_by name).
Proof. intros r1 r2. unfold le_by. apply _. Defined.

Definition sort_values_by (name : string) (table : list (gmap string cell)) : result (list (gmap string cell)) :=
  if sortable ((λ r, r !!! name) <$> table)
  then Ok (merge_sort (le_by name) table)
  else Raise TypeError.

Definition no_params_message (sample_folder : string) : string :=
  "No params.txt file found for sample: " +:+ sample_folder.

(** The body of the loop over [os.listdir(results_dir)]. *)
Definition tf_sample (data_list : list (gmap string cell)) (entry : string * node) : io (list (gmap string cell)) :=
  let '(sample_folder, nd) := entry in
  match nd with
  | Dir files =>
      match first_with_suffix ".params.txt" files with
      | None => _ ← print (no_params_message sample_folder); mret data_list
      | Some (file_name, params_file) =>
          data ← lift (read_params sample_folder params_file);
          mret (data_list ++ [data])
      end
  | File _ => mret data_list
  end.

Definition extract_tf_data (results_dir : list (string * node)) : io (list (gmap string cell)) :=
  data_list ← for_each results_dir tf_sample [];
  lift (sort_values_by "library" (frame_row tf_columns <$> data_list)).

(** ** [extract_cna_data] *)

(** [df.loc[:, ['chr', 'start', 'end', logR_column]]], the value column
    renamed and every row tagged with the library. A row shorter than the
    header reads as NaN past its end, as pandas pads it. *)
Definition extract_columns (df : DataFrame) (library logR_column : string) : result (list seg_row) :=
  i_chr ← get_loc df "chr";
  i_start ← get_loc df "start";
  i_end ← get_loc df "end";
  i_logR ← get_loc df logR_column;
  Ok ((λ r : list cell,
        {| library := library; chr := r !!! i_chr; start := r !!! i_start;
           end_ := r !!! i_end; logR := r !!! i_logR |}) <$> rows df).

(** The body of the loop over the files of one sample folder. *)
Definition cna_file (logR_column_choice : string) (data : list seg_row) (entry : string * node) : io (list seg_row) :=
  let '(file_name, nd) := entry in
  if endswith file_name ".cna.seg" then
    let library := replace file_name ".cna.seg" EmptyString in
    match nd with
    | File content =>
        df ← lift (read_csv content);
        let logR_column := library +:+ "." +:+ logR_column_choice in
        if bool_decide (logR_column ∈ columns df) then
          extracted_data ← lift (extract_columns df library logR_column);
          mret (data ++ extracted_data)
        else mret data
    | Dir _ => mret data
    end
  else mret data.

(** The body of the loop over [os.listdir(parent_directory)]. *)
Definition cna_item (logR_column_choice : string) (data : list seg_row) (entry : string * node) : io (list seg_row) :=
  let '(item, nd) := entry in
  match nd with
  | Dir files => for_each files (cna_file logR_column_choice) data
  | File _ => mret data
  end.

(** Lexicographic comparison of two lists of sort keys. *)
Fixpoint lex_le (ks1 ks2 : list cell) : bool :=
  match ks1, ks2 with
  | a :: ks1', b :: ks2' =>
      if decide (cell_le a b)
      then (if decide (cell_le b a) then lex_le ks1' ks2' else true)
      else false
  | _, _ => true
  end.

Definition seg_le (r1 r2 : seg_row) : Prop :=
  lex_le [Str (library r1); chr r1; start r1; end_ r1] [Str (library r2); chr r2; start r2; end_ r2].

Global Instance seg_le_dec : RelDecision seg_le.
Proof. intros r1 r2. unfold seg_le. apply _. Defined.

(** [df.sort_values(by=['library', 'chr', 'start', 'end'])] *)
Definition sort_values (table : list seg_row) : result (list seg_row) :=
  if sortable (chr <$> table) && sortable (start <$> table) && sortable (end_ <$> table)
  then Ok (merge_sort seg_le table)
  else Raise TypeError.

Definition extract_cna_data (parent_directory : list (string * node)) (logR_column_choice : string) : io (list seg_row) :=
  data ← for_each parent_directory (cna_item logR_column_choice) [];
  lift (sort_values data).

(** ** The archive builders *)

(** [zipf.write(path, arcname=file_name)]: a directory is stored as an
    empty entry whose name gets a trailing slash. *)
Definition zip_write (file_name : string) (nd : node) : zip_member :=
  match nd with
  | File content => {| arcname := file_name; stored := Some content |}
  | Dir _ => {| arcname := file_name +:+ "/"; stored := None |}
  end.

Definition no_cna_seg_message (sample_folder : string) : string :=
  "No cna.seg file found for sample: " +:+ sample_folder.

(** The body shared by the two archive loops: the first file with the
    suffix is added, and the [else] branch of the search loop prints. *)
Definition zip_sample (suffix : string) (message : string → string)
    (zipf : list zip_member) (entry : string * node) : io (list zip_member) :=
  let '(sample_folder, nd) := entry in
  match nd with
  | Dir files =>
      match first_with_suffix suffix files with
      | Some (file_name, f) => mret (zipf ++ [zip_write file_name f])
      | None => _ ← print (message sample_folder); mret zipf
      end
  | File _ => mret zipf
  end.

Definition create_params_zip (results_dir : list (string * node)) (output_zip : string) : io unit :=
  zipf ← for_each results_dir (zip_sample ".params.txt" no_params_message) [];
  write_file output_zip (ZipFile zipf).

Definition create_cna_seg_zip (results_dir : list (string * node)) (output_zip : string) : io unit :=
  zipf ← for_each results_dir (zip_sample ".cna.seg" no_cna_seg_message) [];
  write_file output_zip (ZipFile zipf).

(** ** Library-name normalisation *)

(** [library.replace(pattern, '')] on one identifier. *)
Definition normalize (pattern library : string) : string := replace library pattern EmptyString.

(** [column.str.replace(pattern, '', regex=False)]: a cell that is not a
    string becomes NaN. *)
Definition str_replace (pattern : string) (c : cell) : cell :=
  match c with
  | Str s => Str (normalize pattern s)
  | Num _ => NaN
  end.

Definition normalize_tf (pattern : string) (table : list (gmap string cell)) : list (gmap string cell) :=
  (λ r : gmap string cell, <["library" := str_replace pattern (r !!! "library")]> r) <$> table.

Definition normalize_cna (pattern : string) (table : list seg_row) : list seg_row :=
  (λ r, {| library := normalize pattern (library r); chr := chr r; start := start r;
           end_ := end_ r; logR := logR r |}) <$> table.

(** ** The pivot step *)

Definition interval : Type := cell * cell * cell.

Definition interval_of (r : seg_row) : interval := (chr r, start r, end_ r).

Definition pivot_key (r : seg_row) : interval * string := (interval_of r, library r).

Definition interval_le (i1 i2 : interval) : Prop :=
  lex_le [i1.1.1; i1.1.2; i1.2] [i2.1.1; i2.1.2; i2.2].

Global Instance interval_le_dec : RelDecision interval_le.
Proof. intros i1 i2. unfold interval_le. apply _. Defined.

(** The frame [pivot] returns: the intervals as its index, one column per
    library, and the values row by row. *)
Record pivoted := {
  pivot_index : list interval;
  pivot_columns : list string;
  pivot_values : list (list cell);
}.

(** The value of the long table at an interval and a library, NaN when the
    table has no such record. *)
Fixpoint value_at (table : list seg_row) (i : interval) (lib : string) : cell :=
  match table with
  | [] => NaN
  | r :: table' =>
      if bool_decide (pivot_key r = (i, lib)) then logR r else value_at table' i lib
  end.

(** [df.pivot(index=["chr", "start", "end"], columns="library", values=...)]:
    [ValueError] ("Index contains duplicate entries") when two rows share
    interval and library. *)
Definition pivot (table : list seg_row) : result pivoted :=
  if bool_decide (NoDup (pivot_key <$> table)) then
    let index := merge_sort interval_le (remove_dups (interval_of <$> table)) in
    let libraries := merge_sort String.le (remove_dups (library <$> table)) in
    Ok {| pivot_index := index;
          pivot_columns := libraries;
          pivot_values := (λ i, (λ lib, value_at table i lib) <$> libraries) <$> index |}
  else Raise ValueError.

(** [.reset_index()]: the three index levels become the leading columns;
    [ValueError] ("cannot insert chr, already exists") when a library column
    already has one of their names. *)
Definition reset_index (p : pivoted) : result DataFrame :=
  if bool_decide ("chr" ∈ pivot_columns p ∨ "start" ∈ pivot_columns p ∨ "end" ∈ pivot_columns p)
  then Raise ValueError
  else Ok {| columns := ["chr"; "start"; "end"] ++ pivot_columns p;
             rows := zip_with (λ (i : interval) values, [i.1.1; i.1.2; i.2] ++ values)
                       (pivot_index p) (pivot_values p) |}.

(** The cell of a frame's row under a column label (NaN if there is no such column). *)
Definition at_column (df : DataFrame) (row : list cell) (name : string) : cell :=
  match index_of name (columns df) with
  | Some i => row !!! i
  | None => NaN
  end.

(** ** [main] *)

Record args := {
  results_dir : list (string * node);
  output_dir : string;
  bam_name_pattern : string;
  create_zips : bool;
}.

(** [os.path.join(directory, name)] *)
Definition path_join (directory name : string) : string :=
  if startswith name "/" then name
  else if String.eqb directory EmptyString || endswith directory "/" then directory +:+ name
  else directory +:+ "/" +:+ name.

Definition main (a : args) : io unit :=
  _ ← (([MakeDirs (output_dir a)], Ok tt) : io unit);
  tf_data ← extract_tf_data (results_dir a);
  let tf_data := normalize_tf (bam_name_pattern a) tf_data in
  cna_data_logR ← extract_cna_data (results_dir a) "logR";
  let cna_data_logR := normalize_cna (bam_name_pattern a) cna_data_logR in
  cna_data_logR_Copy_Number ← extract_cna_data (results_dir a) "logR_Copy_Number";
  let cna_data_logR_Copy_Number := normalize_cna (bam_name_pattern a) cna_data_logR_Copy_Number in
  cna_matrix_logR ← lift (pivot cna_data_logR ≫= reset_index);
  cna_matrix_logR_Copy_Number ← lift (pivot cna_data_logR_Copy_Number ≫= reset_index);
  _ ← write_file (path_join (output_dir a) "tf.txt") (TfTable tf_data);
  _ ← write_file (path_join (output_dir a) "cna_logR_long.txt") (LongTable "logR" cna_data_logR);
  _ ← write_file (path_join (output_dir a) "cna_logR_Copy_Number_long.txt")
        (LongTable "logR_Copy_Number" cna_data_logR_Copy_Number);
  _ ← write_file (path_join (output_dir a) "cna_logR_matrix.txt") (Matrix cna_matrix_logR);
  _ ← write_file (path_join (output_dir a) "cna_logR_Copy_Number_matrix.txt")
        (Matrix cna_matrix_logR_Copy_Number);
  if create_zips a then
    _ ← create_params_zip (results_dir a) (path_join (output_dir a) "params.zip");
    create_cna_seg_zip (results_dir a) (path_join (output_dir a) "cna_seg.zip")
  else mret tt.

(** ** Reference notions for the statements

    These follow the words of the specification, not the code; the theorems
    below relate them to the functions above. *)

(** The text of a line before its first colon, and the text after it. *)
Fixpoint before_colon (s : string) : string :=
  match s with
  | EmptyString => EmptyString
  | String c s' => if Ascii.eqb c ":" then EmptyString else String c (before_colon s')
  end.

Fixpoint after_colon (s : string) : option string :=
  match s with
  | EmptyString => None
  | String c s' => if Ascii.eqb c ":" then Some s' else after_colon s'
  end.

(** The five labels of a parameter file, the text that marks each in a line
    and the column each fills. *)
Inductive label := Gender | TumorFraction | Ploidy | ChrYCoverage | ChrXMedian.

Global Instance label_eq_dec : EqDecision label.
Proof. solve_decision. Defined.

Definition label_text (l : label) : string :=
  match l with
  | Gender => "Gender:"
  | TumorFraction => "Tumor Fraction:"
  | Ploidy => "Ploidy:"
  | ChrYCoverage => "ChrY coverage fraction:"
  | ChrXMedian => "ChrX median log ratio:"
  end.

Definition label_key (l : label) : string :=
  match l with
  | Gender => "gender"
  | TumorFraction => "tumor_fraction"
  | Ploidy => "ploidy"
  | ChrYCoverage => "ChrY_coverage_fraction"
  | ChrXMedian => "ChrX_median_log_ratio"
  end.

(** The label a (stripped) line is recognized by: the first, in the order the
    script tests them, whose text occurs in the line. *)
Definition recognized (line : string) : option label :=
  List.find (λ l, contains (label_text l) line) [Gender; TumorFraction; Ploidy; ChrYCoverage; ChrXMedian].

(** What is stored for a label once its value text is known. *)
Definition stored_value (l : label) (v : string) : result cell :=
  match l with
  | Gender => Ok (Str v)
  | _ => float_or_nan v
  end.

(** [s.removesuffix(suffix)]: the suffix stripped once, at the end only. *)
Definition removesuffix (s suffix : string) : string :=
  if endswith s suffix then String.substring 0 (String.length s - String.length suffix) s else s.

(** A sample folder that holds at least one file whose name ends in [suffix]. *)
Definition holds_file (suffix : string) (entry : string * node) : bool :=
  match entry.2 with
  | Dir files => existsb (λ f : string * node, endswith f.1 suffix) files
  | File _ => false
  end.

(** The library identifier of a row of the parameter table. *)
Definition library_of (r : gmap string cell) : string :=
  match r !! "library" with
  | Some (Str s) => s
  | _ => EmptyString
  end.

(** The sample folders that hold a parameter file, each with the first such
    file of its listing. *)
Definition params_file_of (entry : string * node) : option (string * node) :=
  match entry.2 with
  | Dir files =>
      match first_with_suffix ".params.txt" files with
      | Some f => Some (entry.1, f.2)
      | None => None
      end
  | File _ => None
  end.

Definition samples_with_params (root : list (string * node)) : list (string * node) :=
  omap params_file_of root.

(** The segmentation files of the sample folders, in listing order. *)
Definition seg_file_of (entry : string * node) : option (string * file_content) :=
  match entry.2 with
  | File content => if endswith entry.1 ".cna.seg" then Some (entry.1, content) else None
  | Dir _ => None
  end.

Definition seg_files (root : list (string * node)) : list (string * file_content) :=
  concat ((λ entry : string * node,
            match entry.2 with
            | Dir files => omap seg_file_of files
            | File _ => []
            end) <$> root).

(** The rows a segmentation file gives to the long table when its library is
    [library]: none unless the file reads as a table that has the column
    [library.selector]. *)
Definition tagged_rows (library selector : string) (content : file_content) : list seg_row :=
  match read_csv content with
  | Ok df =>
      if bool_decide (library +:+ "." +:+ selector ∈ columns df)
      then (λ r, {| library := library; chr := at_column df r "chr";
                    start := at_column df r "start"; end_ := at_column df r "end";
                    logR := at_column df r (library +:+ "." +:+ selector) |}) <$> rows df
      else []
  | Raise _ => []
  end.

(** The rows a segmentation file gives when its library is derived from its
    name by [derive]. *)
Definition file_rows (derive : string → string) (selector : string) (f : string * file_content) : list seg_row :=
  tagged_rows (derive f.1) selector f.2.

(** What an archive holds for a sample folder, and the folders it has
    nothing for. *)
Definition archived (suffix : string) (entry : string * node) : option zip_member :=
  match entry.2 with
  | Dir files =>
      match first_with_suffix suffix files with
      | Some f => Some (zip_write f.1 f.2)
      | None => None
      end
  | File _ => None
  end.

Definition unmatched (suffix : string) (entry : string * node) : option string :=
  match entry.2 with
  | Dir files =>
      match first_with_suffix suffix files with
      | Some _ => None
      | None => Some entry.1
      end
  | File _ => None
  end.

(** The table an extractor returned (empty if it raised). *)
Definition table_of {A} (m : io (list A)) : list A :=
  match m.2 with
  | Ok table => table
  | Raise _ => []
  end.

Definition is_write (e : event) : bool :=
  match e with WriteFile _ _ => true | _ => false end.

Definition is_print (e : event) : bool :=
  match e with Stdout _ => true | _ => false end.

(** ** Further reference notions *)

(** A line that cannot be taken in: it is recognized by a numeric label and
    the text between its first two colons is neither NA nor a number. *)
Definition bad_number (raw : string) : bool :=
  match recognized (strip raw), after_colon (strip raw) with
  | Some l, Some t =>
      let v := strip (before_colon t) in
      negb (bool_decide (l = Gender)) && negb (String.eqb v "NA")
        && negb (bool_decide (is_Some (float v)))
  | _, _ => false
  end.

(** What one segmentation file gives the long table: its tagged rows, nothing
    when it lacks the log-ratio column, or the error that stops the run. *)
Definition file_result (selector : string) (f : string * file_content) : result (list seg_row) :=
  let library := replace f.1 ".cna.seg" EmptyString in
  df ← read_csv f.2;
  if bool_decide (library +:+ "." +:+ selector ∈ columns df)
  then if bool_decide ("chr" ∈ columns df ∧ "start" ∈ columns df ∧ "end" ∈ columns df)
       then Ok (tagged_rows library selector f.2)
       else Raise KeyError
  else Ok [].

(** Several results in a row: the first error, or everything appended. *)
Fixpoint collect {A : Type} (rs : list (result (list A))) : result (list A) :=
  match rs with
  | [] => Ok []
  | r :: rs' => x ← r; xs ← collect rs'; Ok (x ++ xs)
  end.

(** The paths of the files [main] writes when it succeeds. *)
Definition written_paths (a : args) : list string :=
  [path_join (output_dir a) "tf.txt";
   path_join (output_dir a) "cna_logR_long.txt";
   path_join (output_dir a) "cna_logR_Copy_Number_long.txt";
   path_join (output_dir a) "cna_logR_matrix.txt";
   path_join (output_dir a) "cna_logR_Copy_Number_matrix.txt"]
  ++ (if create_zips a
      then [path_join (output_dir a) "params.zip"; path_join (output_dir a) "cna_seg.zip"]
      else []).

Definition written_path (e : event) : option string :=
  match e with
  | WriteFile path _ => Some path
  | _ => None
  end.

(** ** The sample manifest script, [config/create_sample_yaml.py]

    The folder to scan is given by the string of its absolute path and by
    its listing. *)

(** [os.path.basename(p)]: the text after the last slash. *)
Definition basename (p : string) : string := List.last (split "/" p) EmptyString.

(** The path of an entry [name] of the directory at [parent]. *)
Definition path_child (parent name : string) : string :=
  if endswith parent "/" then parent +:+ name else parent +:+ "/" +:+ name.

(** [Path(folder).glob('**/*.bam')]: the entries, at any depth, whose name
    ends in .bam; those of a directory before those of its subdirectories. *)
Fixpoint glob_below (path : string) (nd : node) : list string :=
  match nd with
  | File _ => []
  | Dir entries =>
      (path_child path <$> filter (λ name, endswith name ".bam") entries.*1)
      ++ (fix below (es : list (string * node)) : list string :=
            match es with
            | [] => []
            | (name, child) :: es' => glob_below (path_child path name) child ++ below es'
            end) entries
  end.

Definition glob_bam (bamfolder : string) (listing : list (string * node)) : list string :=
  glob_below bamfolder (Dir listing).

(** [files.sort(key=...)]: a stable sort on the keys' string order. *)
Fixpoint insert_by (key : string → string) (x : string) (l : list string) : list string :=
  match l with
  | [] => [x]
  | y :: l' => if String.leb (key x) (key y) then x :: l else y :: insert_by key x l'
  end.

Definition sort_by (key : string → string) (l : list string) : list string :=
  foldr (insert_by key) [] l.

Definition newline : string := String "010"%char EmptyString.

Definition manifest_line (bam_file : string) : string :=
  " " +:+ basename bam_file +:+ ": " +:+ bam_file +:+ newline.

(** The strings the script writes to samples.yaml, in order. *)
Definition create_sample_yaml (bamfolder : string) (listing : list (string * node)) : list string :=
  let bam_files := sort_by basename (glob_bam bamfolder listing) in
  ("samples:" +:+ newline) :: (manifest_line <$> bam_files).

(** An entry [name] of the tree under the directory at [base], with its path. *)
Inductive located : string → list (string * node) → string → string → Prop :=
| located_here base listing name nd :
    (name, nd) ∈ listing → located base listing (path_child base name) name
| located_below base listing dir entries path name :
    (dir, Dir entries) ∈ listing →
    located (path_child base dir) entries path name →
    located base listing path name.

End Model.

(** ** A small instance of the numbers and example directories

    Integers with a NaN, enough to evaluate the model on concrete inputs. *)
Definition toy_le (x y : option Z) : Prop :=
  match x, y with
  | _, None => True
  | None, Some _ => False
  | Some a, Some b => (a ≤ b)%Z
  end.

Global Instance toy_le_dec : RelDecision toy_le.
Proof. intros [a|] [b|]; simpl; apply _. Defined.

Global Instance toy_le_total : Total toy_le.
Proof. intros [a|] [b|]; simpl; auto. destruct (Z.le_ge_cases a b); auto. Qed.

Fixpoint toy_digits (acc : Z) (s : string) : option Z :=
  match s with
  | EmptyString => Some acc
  | String c s' =>
      match Ascii.is_nat c with
      | Some d => toy_digits (10 * acc + Z.of_nat d) s'
      | None => None
      end
  end.

Definition toy_float (s : string) : option (option Z) :=
  if String.eqb s "nan" then Some None
  else match s with
       | EmptyString => None
       | String c ds =>
           if Ascii.eqb c "-"
           then match ds with
                | EmptyString => None
                | String _ _ => match toy_digits 0 ds with Some z => Some (Some (- z)%Z) | None => None end
                end
           else match toy_digits 0 s with Some z => Some (Some z) | None => None end
       end.

Definition toy_numbers : Numbers := {|
  num := option Z;
  nan := None;
  num_le := toy_le;
  float := toy_float;
|}.

Section Examples.
#[local] Existing Instance toy_numbers.

Definition text_file (lines : list string) : node :=
  File {| readlines := lines; read_csv := Raise ParserError |}.

Definition seg_file (header : list string) (data : list (list cell)) : node :=
  File {| readlines := []; read_csv := Ok {| columns := header; rows := data |} |}.

(** Two samples with their parameter and segmentation files, a stray file
    and a folder without a parameter file. *)
Definition ex_S1_seg : file_content :=
  {| readlines := [];
     read_csv := Ok {| columns := ["chr"; "start"; "end"; "S1.bam.logR"; "S1.bam.logR_Copy_Number"];
                       rows := [[Str "chr1"; Num (Some 0%Z); Num (Some 1000%Z); Num (Some (-5)%Z); Num (Some 1%Z)]] |} |}.

Definition ex_S2_seg : file_content :=
  {| readlines := [];
     read_csv := Ok {| columns := ["chr"; "start"; "end"; "S2.logR"; "S2.logR_Copy_Number"];
                       rows := [[Str "chr1"; Num (Some 0%Z); Num (Some 1000%Z); Num (Some (-7)%Z); Num (Some 1%Z)];
                                [Str "chr1"; Num (Some 1000%Z); Num (Some 2000%Z); Num (Some 3%Z)]] |} |}.

Definition ex_S3_seg : file_content :=
  {| readlines := [];
     read_csv := Ok {| columns := ["chr"; "start"; "end"; "other.logR"];
                       rows := [[Str "chrX"; Num (Some 5%Z); Num (Some 6%Z); Num (Some 2%Z)]] |} |}.

Definition ex_S2_params : file_content :=
  {| readlines := ["Tumor Fraction: NA"; "Ploidy: 21"; "Gender: NA"]; read_csv := Raise ParserError |}.

Definition ex_S2_files : list (string * node) :=
  [("S2.params.txt", File ex_S2_params); ("S2.cna.seg", File ex_S2_seg)].

Definition ex_S1_files : list (string * node) :=
  [("plot.pdf", text_file []);
   ("S1.bam.params.txt", text_file ["Tumor Fraction:	12"; "Ploidy: 2"; "Gender: fe:male"; "junk"]);
   ("S1.bam.cna.seg", File ex_S1_seg)].

Definition ex_root : list (string * node) :=
  [("S2", Dir ex_S2_files);
   ("notes.txt", text_file []);
   ("S3", Dir [("S3.cna.seg", File ex_S3_seg)]);
   ("S1.bam", Dir ex_S1_files)].

(** A file whose name has the suffix twice, with the column that the
    suffix-stripped name asks for. *)
Definition twice_seg : file_content :=
  {| readlines := [];
     read_csv := Ok {| columns := ["chr"; "start"; "end"; "a.cna.seg.logR"];
                       rows := [[Str "chr1"; Num (Some 0%Z); Num (Some 1000%Z); Num (Some (-5)%Z)]] |} |}.

Definition twice_root : list (string * node) :=
  [("a", Dir [("a.cna.seg.cna.seg", File twice_seg)])].

(** Two folders whose segmentation files normalise to the same library. *)
Definition dup_root : list (string * node) :=
  [("S1", Dir [("S1.cna.seg", seg_file ["chr"; "start"; "end"; "S1.logR"; "S1.logR_Copy_Number"]
                 [[Str "chr1"; Num (Some 0%Z); Num (Some 1000%Z); Num (Some 1%Z); Num (Some 2%Z)]])]);
   ("S1.bam", Dir [("S1.bam.cna.seg", seg_file ["chr"; "start"; "end"; "S1.bam.logR"; "S1.bam.logR_Copy_Number"]
                 [[Str "chr1"; Num (Some 0%Z); Num (Some 1000%Z); Num (Some 3%Z); Num (Some 4%Z)]])])].

Definition dup_args : args :=
  {| results_dir := dup_root; output_dir := "out"; bam_name_pattern := ".bam"; create_zips := false |}.

(** A long-format table with unique keys. *)
Definition ex_long : list seg_row :=
  [{| library := "S0"; chr := Str "chr1"; start := Num (Some 0%Z); end_ := Num (Some 9%Z); logR := Num (Some 3%Z) |};
   {| library := "S0"; chr := Str "chr1"; start := Num (Some 10%Z); end_ := Num (Some 19%Z); logR := Num (Some 2%Z) |};
   {| library := "S1"; chr := Str "chr1"; start := Num (Some 0%Z); end_ := Num (Some 9%Z); logR := Num (Some 1%Z) |}].

(** A folder of alignments with nested folders. *)
Definition bam_tree : list (string * node) :=
  [("b.bam", text_file []);
   ("sub", Dir [("c.bam", text_file []);
                ("deep", Dir [("a.bam", text_file []); ("a.bam.bai", text_file [])])]);
   ("readme", text_file [])].

(** A sample whose parameter file has a tumor fraction that is no number. *)
Definition bad_root : list (string * node) :=
  [("S3", Dir []);
   ("S1", Dir [("S1.params.txt", text_file ["Gender: male"; "Tumor Fraction: unknown"])]);
   ("S2", Dir ex_S2_files)].

(** A segmentation file that has its log-ratio column but no start column. *)
Definition nostart_root : list (string * node) :=
  [("S2", Dir ex_S2_files);
   ("S4", Dir [("S4.cna.seg", seg_file ["chr"; "end"; "S4.logR"] [[Str "chr1"; Num (Some 5%Z); Num (Some 1%Z)]])])].

Definition ex_args : args :=
  {| results_dir := ex_root; output_dir := "out"; bam_name_pattern := ".bam"; create_zips := true |}.

(** A sample folder with two entries ending in .params.txt, the first of
    which gives the ploidy twice. *)
Definition two_params_files : list (string * node) :=
  [("run.log", text_file ["Ploidy: 9"]);
   ("S5.params.txt", text_file ["Ploidy: 3"; "Gender: male"; "Ploidy: 2"; "Tumor Fraction: 7"]);
   ("S5.old.params.txt", text_file ["Ploidy: 4"; "Gender: female"])].

Definition two_params_root : list (string * node) :=
  [("S2", Dir ex_S2_files); ("S5", Dir two_params_files)].

(** Long-format tables with unique keys and a library named like an index
    column. *)
Definition chr_long : list seg_row :=
  [{| library := "chr"; chr := Str "chr1"; start := Num (Some 0%Z); end_ := Num (Some 9%Z); logR := Num (Some 3%Z) |};
   {| library := "S1"; chr := Str "chr1"; start := Num (Some 0%Z); end_ := Num (Some 9%Z); logR := Num (Some 1%Z) |}].

Definition start_long : list seg_row :=
  [{| library := "start"; chr := Str "chr1"; start := Num (Some 0%Z); end_ := Num (Some 9%Z); logR := Num (Some 3%Z) |}].

End Examples.

(** * Properties *)

(** ** Strings *)

Lemma startswith_nil s : startswith s EmptyString = true.
Proof. by destruct s. Qed.

Lemma contains_cons p c s : contains p (String c s) = startswith (String c s) p || contains p s.
Proof. simpl. by destruct (startswith (String c s) p). Qed.

Lemma contains_tail p c s : contains p (String c s) = false → contains p s = false.
Proof. rewrite contains_cons. by intros [_ ?]%orb_false_iff. Qed.

Lemma contains_head p s : contains p s = false → startswith s p = false.
Proof.
  destruct s as [|c s]; simpl.
  - by destruct (startswith EmptyString p).
  - by destruct (startswith (String c s) p).
Qed.

(** Where the pattern does not occur, the scan changes nothing. *)
Lemma replace_scan_absent old new s :
  contains old s = false → replace_scan old new 0 s = s.
Proof.
  induction s as [|c s IH]; intros Hc; [done|].
  cbn [replace_scan]. rewrite (contains_head _ _ Hc).
  f_equal. apply IH. by eapply contains_tail.
Qed.

Lemma replace_absent s old new :
  contains old s = false → replace s old new = s.
Proof.
  destruct old as [|c old]; intros Hc.
  - destruct s; simpl in Hc; done.
  - by apply replace_scan_absent.
Qed.

(** C9: for every library identifier and every non-empty pattern, if the
    identifier with all occurrences of the pattern removed no longer contains
    the pattern, normalising twice gives the same as normalising once. *)
Theorem normalize_idempotent (pattern library : string) :
  pattern ≠ EmptyString →
  contains pattern (normalize pattern library) = false →
  normalize pattern (normalize pattern library) = normalize pattern library.
Proof. intros _ Hc. unfold normalize at 1. by apply replace_absent. Qed.

Lemma replace_scan_skip_all old new s :
  replace_scan old new (String.length s) s = EmptyString.
Proof. induction s as [|c s IH]; [done|]. exact IH. Qed.

Lemma startswith_refl s : startswith s s = true.
Proof.
  unfold startswith. induction s as [|c s IH]; [done|]. cbn.
  by destruct (Ascii.ascii_dec c c).
Qed.

Lemma endswith_app s suffix :
  endswith s suffix = true → ∃ pre, s = pre +:+ suffix.
Proof.
  induction s as [|c s IH]; cbn [endswith].
  - destruct (String.eqb EmptyString suffix) eqn:E; [|done].
    apply String.eqb_eq in E as <-. by exists EmptyString.
  - destruct (String.eqb (String c s) suffix) eqn:E.
    + apply String.eqb_eq in E as <-. by exists EmptyString.
    + intros [pre ->]%IH. by exists (String c pre).
Qed.

Lemma endswith_app_r pre suffix : endswith (pre +:+ suffix) suffix = true.
Proof.
  induction pre as [|c pre IH].
  - change (EmptyString +:+ suffix) with suffix. destruct suffix; cbn [endswith]; by rewrite String.eqb_refl.
  - change (String c pre +:+ suffix) with (String c (pre +:+ suffix)). cbn [endswith].
    rewrite IH. by destruct (String.eqb _ _).
Qed.

Lemma substring_app_l pre s :
  String.substring 0 (String.length pre) (pre +:+ s) = pre.
Proof.
  induction pre as [|c pre IH]; [by destruct s|].
  change (String c pre +:+ s) with (String c (pre +:+ s)). cbn. by rewrite IH.
Qed.

Lemma string_length_app s1 s2 :
  String.length (s1 +:+ s2) = String.length s1 + String.length s2.
Proof.
  induction s1 as [|c s1 IH]; [done|].
  change (String c s1 +:+ s2) with (String c (s1 +:+ s2)). cbn. by rewrite IH.
Qed.

Lemma removesuffix_app pre suffix : removesuffix (pre +:+ suffix) suffix = pre.
Proof.
  unfold removesuffix. rewrite endswith_app_r.
  replace (String.length (pre +:+ suffix) - String.length suffix) with (String.length pre).
  - apply substring_app_l.
  - rewrite string_length_app. lia.
Qed.

(** Where the pattern occurs at the end of a string and nowhere before,
    removing every occurrence is stripping the suffix. *)
Lemma replace_only_suffix pre suffix :
  suffix ≠ EmptyString →
  (∀ a b, pre = a +:+ b → b ≠ EmptyString → startswith (b +:+ suffix) suffix = false) →
  replace (pre +:+ suffix) suffix EmptyString = removesuffix (pre +:+ suffix) suffix.
Proof.
  intros Hne Honly. rewrite removesuffix_app.
  destruct suffix as [|c0 suf]; [done|]. unfold replace.
  induction pre as [|c pre IH].
  - change (EmptyString +:+ String c0 suf) with (String c0 suf). cbn [replace_scan].
    rewrite startswith_refl.
    replace (String.length (String c0 suf) - 1) with (String.length suf) by (cbn; lia).
    by rewrite replace_scan_skip_all.
  - change (String c pre +:+ String c0 suf) with (String c (pre +:+ String c0 suf)).
    pose proof (Honly EmptyString (String c pre) eq_refl ltac:(done)) as Hs.
    change (String c pre +:+ String c0 suf) with (String c (pre +:+ String c0 suf)) in Hs.
    cbn [replace_scan]. rewrite Hs. f_equal. apply IH.
    intros a b -> Hb. by apply (Honly (String c a) b).
Qed.

(** ** Lines of a parameter file *)

Lemma split_colon s :
  split ":" s = before_colon s :: from_option (split ":") [] (after_colon s).
Proof.
  induction s as [|c s IH]; simpl; [done|].
  destruct (Ascii.eqb c ":"); [done|]. by rewrite IH.
Qed.

Lemma before_colon_no_colon t : after_colon t = None → before_colon t = t.
Proof.
  induction t as [|c t IH]; simpl; [done|].
  destruct (Ascii.eqb c ":"); [done|]. intros ?. f_equal. auto.
Qed.

Lemma startswith_after_colon p s :
  startswith s p = true → is_Some (after_colon p) → is_Some (after_colon s).
Proof.
  unfold startswith. revert s. induction p as [|a p IH]; intros s Hp Hs; simpl in *.
  - by destruct Hs.
  - destruct s as [|b s]; [done|]. cbn in Hp.
    destruct (Ascii.ascii_dec a b) as [<-|]; [|done]. simpl.
    destruct (Ascii.eqb a ":"); eauto.
Qed.

Lemma contains_after_colon p s :
  contains p s = true → is_Some (after_colon p) → is_Some (after_colon s).
Proof.
  intros Hc Hp. induction s as [|c s IH].
  - simpl in Hc. destruct (startswith EmptyString p) eqn:E; [|done].
    by eapply startswith_after_colon.
  - rewrite contains_cons in Hc. apply orb_true_iff in Hc as [Hc|Hc].
    + by eapply startswith_after_colon.
    + simpl. destruct (Ascii.eqb c ":"); eauto.
Qed.

Lemma label_text_colon l : is_Some (after_colon (label_text l)).
Proof. destruct l; vm_compute; eauto. Qed.

Lemma recognized_contains line l :
  recognized line = Some l → contains (label_text l) line = true.
Proof. intros Hr. by apply List.find_some in Hr as [_ ?]. Qed.

Lemma recognized_after_colon line l :
  recognized line = Some l → is_Some (after_colon line).
Proof.
  intros Hr. eapply contains_after_colon; [by apply recognized_contains|].
  apply label_text_colon.
Qed.

Section Properties.
Context `{Numbers}.

Lemma value_of_after_colon line :
  value_of line =
    match after_colon line with
    | Some t => Ok (strip (before_colon t))
    | None => Raise IndexError
    end.
Proof.
  unfold value_of. rewrite split_colon. simpl.
  destruct (after_colon line) as [t|]; simpl; [|done].
  by rewrite split_colon.
Qed.

Lemma scan_line_recognized data raw :
  scan_line data raw =
    match recognized (strip raw) with
    | None => Ok data
    | Some l =>
        v ← value_of (strip raw); x ← stored_value l v; Ok (<[label_key l := x]> data)
    end.
Proof.
  unfold scan_line, recognized. cbn [List.find label_text].
  repeat (match goal with |- context [contains ?p ?s] => destruct (contains p s) end;
          [by destruct (value_of (strip raw))|]).
  done.
Qed.

(** C7 (amended): for every recognized parameter-file line, the value
    recorded is the text between the first and the second colon of the line
    (all the text after the first colon when that text has no further colon),
    trimmed of surrounding whitespace; the gender is recorded as that string,
    a numeric field as NaN when the text is the literal NA and as its
    floating-point value otherwise ([ValueError] if it is not a number). *)
Theorem scan_line_value (data : gmap string cell) (raw : string) (l : label) :
  recognized (strip raw) = Some l →
  ∃ t, after_colon (strip raw) = Some t ∧
    (after_colon t = None → before_colon t = t) ∧
    let v := strip (before_colon t) in
    (l = Gender → scan_line data raw = Ok (<["gender" := Str v]> data)) ∧
    (l ≠ Gender → v = "NA" → scan_line data raw = Ok (<[label_key l := NaN]> data)) ∧
    (l ≠ Gender → v ≠ "NA" → ∀ x, float v = Some x →
       scan_line data raw = Ok (<[label_key l := Num x]> data)) ∧
    (l ≠ Gender → v ≠ "NA" → float v = None → scan_line data raw = Raise ValueError).
Proof.
  intros Hr. destruct (recognized_after_colon _ _ Hr) as [t Ht].
  exists t. split; [done|]. split; [apply before_colon_no_colon|].
  rewrite scan_line_recognized, Hr, value_of_after_colon, Ht. simpl.
  split; [by intros ->|].
  assert (∀ v, l ≠ Gender → stored_value l v = float_or_nan v) as Hs
    by (intros v ?; by destruct l).
  unfold float_or_nan in Hs.
  split; [|split].
  - intros Hl Hv. rewrite Hs, Hv by done. done.
  - intros Hl Hv x Hx. rewrite Hs by done.
    apply String.eqb_neq in Hv. by rewrite Hv, Hx.
  - intros Hl Hv Hx. rewrite Hs by done.
    apply String.eqb_neq in Hv. by rewrite Hv, Hx.
Qed.

Lemma label_key_not_library l : label_key l ≠ "library".
Proof. by destruct l. Qed.

Lemma label_key_inj l1 l2 : label_key l1 = label_key l2 → l1 = l2.
Proof. by destruct l1, l2. Qed.

Lemma scan_line_Ok data raw data' :
  scan_line data raw = Ok data' →
  match recognized (strip raw) with
  | None => data' = data
  | Some l => ∃ v x, value_of (strip raw) = Ok v ∧ stored_value l v = Ok x ∧
                     data' = <[label_key l := x]> data
  end.
Proof.
  rewrite scan_line_recognized. destruct (recognized (strip raw)) as [l|]; [|congruence].
  destruct (value_of (strip raw)) as [v|]; [|done]. simpl.
  destruct (stored_value l v) as [x|] eqn:?; [|done]. simpl.
  intros [= <-]. eauto.
Qed.

(** A line leaves alone every key but that of the label it is recognized by. *)
Lemma scan_line_other data raw data' k :
  scan_line data raw = Ok data' →
  (∀ l, recognized (strip raw) = Some l → label_key l ≠ k) →
  data' !! k = data !! k.
Proof.
  intros Hs%scan_line_Ok Hk. destruct (recognized (strip raw)) as [l|].
  - destruct Hs as (v & x & _ & _ & ->). rewrite lookup_insert_ne; [done|]. by apply Hk.
  - by subst.
Qed.

Lemma scan_lines_other lines data data' k :
  for_each_result lines scan_line data = Ok data' →
  Forall (λ raw, ∀ l, recognized (strip raw) = Some l → label_key l ≠ k) lines →
  data' !! k = data !! k.
Proof.
  revert data. induction lines as [|raw lines IH]; intros data Hf Hk; simpl in Hf.
  - by injection Hf as <-.
  - destruct (scan_line data raw) as [d|] eqn:Hd; [|done]. simpl in Hf.
    apply Forall_cons in Hk as [Hk1 Hk2].
    rewrite (IH _ Hf Hk2). by eapply scan_line_other.
Qed.

Lemma for_each_result_app {A S} (xs ys : list A) (body : S → A → result S) s :
  for_each_result (xs ++ ys) body s = s' ← for_each_result xs body s; for_each_result ys body s'.
Proof.
  revert s. induction xs as [|x xs IH]; intros s; simpl; [done|].
  destruct (body s x); simpl; [apply IH|done].
Qed.

Lemma read_params_library folder f data :
  read_params folder f = Ok data → data !! "library" = Some (Str folder).
Proof.
  destruct f as [content|]; [|done]. simpl. intros Hf.
  erewrite scan_lines_other; [|done|].
  - apply lookup_singleton_eq.
  - apply Forall_forall. intros ?? l _. apply label_key_not_library.
Qed.

(** ** The effect monad and its loops *)

Lemma io_bind_ret {A B} (a : A) (f : A → io B) : (mret a ≫= f) = f a.
Proof. unfold mret, io_ret, mbind, io_bind. by destruct (f a). Qed.

Lemma io_bind_assoc {A B C} (m : io A) (f : A → io B) (g : B → io C) :
  (m ≫= f) ≫= g = m ≫= (λ a, f a ≫= g).
Proof.
  unfold mbind, io_bind. destruct m as [t [a|e]]; [|done].
  destruct (f a) as [t1 [b|e]]; [|done].
  destruct (g b) as [t2 r]. by rewrite (assoc_L (++)).
Qed.

Lemma io_bind_Ok {A B} (m : io A) (f : A → io B) t b :
  m ≫= f = (t, Ok b) →
  ∃ t1 a t2, m = (t1, Ok a) ∧ f a = (t2, Ok b) ∧ t = t1 ++ t2.
Proof.
  unfold mbind, io_bind. destruct m as [t1 [a|e]]; [|done].
  destruct (f a) as [t2 r] eqn:Hf. intros [= <- ->]. eauto 6.
Qed.

(** The outcome of a sequence depends on the outcomes of its parts only. *)
Lemma io_bind_result {A B} (m : io A) (f : A → io B) :
  (m ≫= f).2 = match m.2 with Ok a => (f a).2 | Raise e => Raise e end.
Proof.
  unfold mbind, io_bind. destruct m as [t [a|e]]; [|done]. simpl. by destruct (f a).
Qed.

Lemma io_bind_trace {A B} (m : io A) (f : A → io B) :
  (m ≫= f).1 = m.1 ++ match m.2 with Ok a => (f a).1 | Raise e => [] end.
Proof.
  unfold mbind, io_bind. destruct m as [t [a|e]]; simpl.
  - by destruct (f a).
  - by rewrite (right_id_L [] (++)).
Qed.

Lemma io_eq {A} (m1 m2 : io A) : m1.1 = m2.1 → m1.2 = m2.2 → m1 = m2.
Proof. destruct m1, m2; simpl; congruence. Qed.

Lemma lift_bind {A B} (r : result A) (f : A → io B) :
  lift r ≫= f = match r with Ok a => f a | Raise e => ([], Raise e) end.
Proof. destruct r as [a|e]; [|done]. apply (io_bind_ret a f). Qed.

Lemma for_each_app {A S} (xs ys : list A) (body : S → A → io S) s :
  for_each (xs ++ ys) body s = s' ← for_each xs body s; for_each ys body s'.
Proof.
  revert s. induction xs as [|x xs IH]; intros s.
  - symmetry. apply (io_bind_ret s).
  - cbn [for_each app]. rewrite io_bind_assoc.
    unfold mbind at 1 3, io_bind. destruct (body s x) as [t [s'|e]]; [|done].
    by rewrite IH.
Qed.

Lemma for_each_cons {A S} (x : A) xs (body : S → A → io S) s :
  for_each (x :: xs) body s = s' ← body s x; for_each xs body s'.
Proof. done. Qed.


(** ** The parameter extractor *)

Lemma omap_cons_Some {A B} (f : A → option B) x y l :
  f x = Some y → omap f (x :: l) = y :: omap f l.
Proof. intros Hf. csimpl. by rewrite Hf. Qed.

Lemma omap_cons_None {A B} (f : A → option B) x l :
  f x = None → omap f (x :: l) = omap f l.
Proof. intros Hf. csimpl. by rewrite Hf. Qed.

Lemma tf_sample_unmatched acc folder files :
  first_with_suffix ".params.txt" files = None →
  tf_sample acc (folder, Dir files) = ([Stdout (no_params_message folder)], Ok acc).
Proof. intros Hf. simpl. by rewrite Hf. Qed.

(** The loop over the sample folders, when it completes: one dictionary per
    folder that holds a parameter file, in listing order, and one message
    per folder that holds none. *)
Lemma for_each_tf_sample root acc t data_list :
  for_each root tf_sample acc = (t, Ok data_list) →
  ∃ ds, data_list = acc ++ ds ∧
    Forall2 (λ sf d, read_params sf.1 sf.2 = Ok d) (samples_with_params root) ds ∧
    t = (λ folder, Stdout (no_params_message folder)) <$> omap (unmatched ".params.txt") root.
Proof.
  revert acc t data_list.
  induction root as [|[folder nd] root IH]; intros acc t data_list Hf.
  - injection Hf as <- <-. exists []. by rewrite (right_id_L [] (++)).
  - rewrite for_each_cons in Hf.
    apply io_bind_Ok in Hf as (t1 & a & t2 & H1 & H2 & ->).
    apply IH in H2 as (ds & -> & HF & ->).
    unfold samples_with_params.
    destruct nd as [c|files].
    + injection H1 as <- <-. exists ds.
      rewrite !omap_cons_None by done. done.
    + cbv beta iota delta [tf_sample] in H1.
      destruct (first_with_suffix ".params.txt" files) as [[file_name f]|] eqn:E.
      * rewrite lift_bind in H1.
        destruct (read_params folder f) as [d|] eqn:Hd; [|done].
        injection H1 as <- <-. exists (d :: ds).
        rewrite (omap_cons_Some _ _ (folder, f)) by (unfold params_file_of; simpl; by rewrite E).
        rewrite omap_cons_None by (unfold unmatched; simpl; by rewrite E).
        split; [by rewrite <- (assoc_L (++))|]. split; [|done].
        by constructor.
      * injection H1 as <- <-. exists ds.
        rewrite omap_cons_None by (unfold params_file_of; simpl; by rewrite E).
        rewrite (omap_cons_Some _ _ folder) by (unfold unmatched; simpl; by rewrite E).
        done.
Qed.

Lemma frame_row_lookup (names : list string) (data : gmap string cell) k :
  k ∈ names → frame_row names data !! k = Some (default NaN (data !! k)).
Proof.
  unfold frame_row. induction names as [|c names IH]; [by intros ?%elem_of_nil|].
  intros Hk. csimpl. destruct (decide (c = k)) as [->|Hne].
  - apply lookup_insert_eq.
  - rewrite lookup_insert_ne by done. apply IH.
    apply elem_of_cons in Hk as [?|?]; [congruence|done].
Qed.

Global Instance cell_le_total : Total cell_le.
Proof.
  intros [x|s] [y|t]; simpl.
  - apply (total num_le).
  - destruct (decide (x = nan)); auto.
  - destruct (decide (y = nan)); auto.
  - apply (total String.le).
Qed.

Global Instance le_by_total name : Total (le_by name).
Proof. intros r1 r2. apply (total cell_le). Qed.

Lemma sort_values_by_Ok name table sorted :
  sort_values_by name table = Ok sorted →
  sorted ≡ₚ table ∧ Sorted (le_by name) sorted.
Proof.
  unfold sort_values_by. destruct (sortable _); [|done]. intros [= <-]. split.
  - apply merge_sort_Permutation.
  - apply (Sorted_merge_sort (le_by name)).
Qed.

(** The parameter table, when the extractor returns one: the rows of the
    folders with a parameter file, reordered. *)
Lemma extract_tf_data_Ok root t table :
  extract_tf_data root = (t, Ok table) →
  ∃ ds, Forall2 (λ sf d, read_params sf.1 sf.2 = Ok d) (samples_with_params root) ds ∧
    table ≡ₚ frame_row tf_columns <$> ds ∧
    Sorted (le_by "library") table ∧
    t = (λ folder, Stdout (no_params_message folder)) <$> omap (unmatched ".params.txt") root.
Proof.
  unfold extract_tf_data. intros Hf.
  apply io_bind_Ok in Hf as (t1 & dl & t2 & H1 & H2 & ->).
  apply for_each_tf_sample in H1 as (ds & -> & HF & ->).
  injection H2 as <- H2. apply sort_values_by_Ok in H2 as [Hp Hs].
  exists ds. by rewrite (right_id_L [] (++)).
Qed.

Lemma first_with_suffix_None suffix files :
  first_with_suffix suffix files = None ↔
  existsb (λ f : string * node, endswith f.1 suffix) files = false.
Proof.
  induction files as [|[file_name nd] files IH]; simpl; [done|].
  destruct (endswith file_name suffix); simpl; [|done]. split; discriminate.
Qed.

Lemma holds_file_Dir suffix folder files :
  holds_file suffix (folder, Dir files) = existsb (λ f : string * node, endswith f.1 suffix) files.
Proof. done. Qed.

Lemma samples_with_params_folders root :
  (samples_with_params root).*1 = (filter (holds_file ".params.txt") root).*1.
Proof.
  unfold samples_with_params.
  induction root as [|[folder nd] root IH]; [done|].
  rewrite filter_cons.
  destruct nd as [c|files].
  - rewrite omap_cons_None by done. by rewrite decide_False by (by intros ?).
  - rewrite holds_file_Dir.
    destruct (first_with_suffix ".params.txt" files) as [f|] eqn:E.
    + rewrite (omap_cons_Some _ _ (folder, f.2)) by (unfold params_file_of; simpl; by rewrite E).
      destruct (existsb _ files) eqn:Ex.
      * rewrite decide_True by done. csimpl. by rewrite IH.
      * apply first_with_suffix_None in Ex. congruence.
    + rewrite omap_cons_None by (unfold params_file_of; simpl; by rewrite E).
      apply first_with_suffix_None in E. rewrite E.
      by rewrite decide_False by (by intros ?).
Qed.

Lemma Sorted_fmap_on {A B} (f : A → B) (P : A → Prop) (R1 : relation A) (R2 : relation B) l :
  (∀ x y, P x → P y → R1 x y → R2 (f x) (f y)) →
  Forall P l → Sorted R1 l → Sorted R2 (f <$> l).
Proof.
  intros HR HP Hs. induction Hs as [|x l Hs IH Hd]; csimpl; [constructor|].
  apply Forall_cons in HP as [Hx HP]. constructor; [by apply IH|].
  destruct Hd as [|y l' Hxy]; csimpl; constructor.
  apply Forall_cons in HP as [Hy _]. by apply HR.
Qed.

Lemma frame_row_library folder f d :
  read_params folder f = Ok d →
  frame_row tf_columns d !! "library" = Some (Str folder).
Proof.
  intros Hd%read_params_library.
  rewrite frame_row_lookup by (unfold tf_columns; set_solver). by rewrite Hd.
Qed.

Lemma frame_rows_libraries (sfs : list (string * node)) (ds : list (gmap string cell)) :
  Forall2 (λ sf d, read_params sf.1 sf.2 = Ok d) sfs ds →
  library_of <$> (frame_row tf_columns <$> ds) = sfs.*1 ∧
  Forall (λ r, r !! "library" = Some (Str (library_of r))) (frame_row tf_columns <$> ds).
Proof.
  induction 1 as [|[folder f] d sfs ds Hd HF [IH1 IH2]]; [done|]. csimpl.
  assert (frame_row tf_columns d !! "library" = Some (Str folder)) as Hl
    by (by eapply frame_row_library).
  assert (library_of (frame_row tf_columns d) = folder) as Hf
    by (unfold library_of; by rewrite Hl).
  split.
  - by rewrite Hf, IH1.
  - constructor; [by rewrite Hf|done].
Qed.

(** C3: the parameter table returned for a results root has exactly one
    record for each sample folder that holds at least one file ending in
    .params.txt, its library field being the folder's name, and the records
    are in ascending lexicographic order of the library; the other folders
    contribute no record. *)
Theorem extract_tf_data_records (root : list (string * node)) t (table : list (gmap string cell)) :
  extract_tf_data root = (t, Ok table) →
  ∃ libs : list string,
    (λ r : gmap string cell, r !! "library") <$> table = (λ s, Some (Str s)) <$> libs ∧
    libs ≡ₚ (filter (holds_file ".params.txt") root).*1 ∧
    Sorted String.le libs.
Proof.
  intros (ds & HF & Hp & Hs & _)%extract_tf_data_Ok.
  apply frame_rows_libraries in HF as [Hl Hall].
  rewrite <- Hp in Hall.
  exists (library_of <$> table). split; [|split].
  - rewrite <- list_fmap_compose. by apply Forall_fmap_ext.
  - rewrite Hp, Hl. by rewrite samples_with_params_folders.
  - eapply (Sorted_fmap_on _ _ (le_by "library")); [|exact Hall|exact Hs].
    intros x y Hx Hy. unfold le_by. rewrite !lookup_total_alt, Hx, Hy. done.
Qed.

Lemma elem_of_samples_with_params root folder files file_name f :
  (folder, Dir files) ∈ root →
  first_with_suffix ".params.txt" files = Some (file_name, f) →
  (folder, f) ∈ samples_with_params root.
Proof.
  intros Hin Hf. apply list_elem_of_omap. exists (folder, Dir files).
  split; [done|]. unfold params_file_of. simpl. by rewrite Hf.
Qed.

Lemma Forall2_elem_of_l {A B} (P : A → B → Prop) l k x :
  Forall2 P l k → x ∈ l → ∃ y, y ∈ k ∧ P x y.
Proof.
  induction 1 as [|a b l k Hab HF IH]; intros Hx.
  - by apply elem_of_nil in Hx.
  - apply elem_of_cons in Hx as [->|Hx].
    + exists b. split; [left|done].
    + destruct (IH Hx) as (y & ? & ?). exists y. split; [by right|done].
Qed.

Lemma label_key_column l : label_key l ∈ tf_columns.
Proof. unfold tf_columns. destruct l; set_solver. Qed.

(** C4 (amended): when a line of a sample's parameter file is recognized by
    a label with the literal value NA, and no later line of the file is
    recognized by the same label, the field of that label in the sample's
    record in the parameter table is the missing value NaN for the four
    numeric labels (tumor fraction, ploidy, ChrY coverage fraction, ChrX
    median log ratio) and the string NA for the gender. *)
Theorem extract_tf_data_NA (root : list (string * node)) t (table : list (gmap string cell))
    folder files file_name content before line after (l : label) :
  extract_tf_data root = (t, Ok table) →
  (folder, Dir files) ∈ root →
  first_with_suffix ".params.txt" files = Some (file_name, File content) →
  readlines content = before ++ line :: after →
  recognized (strip line) = Some l →
  value_of (strip line) = Ok "NA" →
  Forall (λ later, recognized (strip later) ≠ Some l) after →
  ∃ row, row ∈ table ∧ row !! "library" = Some (Str folder) ∧
         row !! label_key l = Some (match l with Gender => Str "NA" | _ => NaN end).
Proof.
  intros (ds & HF & Hp & _)%extract_tf_data_Ok Hin Hf Hlines Hr Hv Hafter.
  pose proof (elem_of_samples_with_params _ _ _ _ _ Hin Hf) as Hs.
  destruct (Forall2_elem_of_l _ _ _ _ HF Hs) as (d & Hd & Hread). cbn [fst snd] in Hread.
  exists (frame_row tf_columns d). split; [|split].
  - rewrite Hp. apply list_elem_of_fmap. eauto.
  - by eapply frame_row_library.
  - rewrite frame_row_lookup by apply label_key_column.
    cbn [read_params] in Hread. rewrite Hlines, for_each_result_app in Hread.
    destruct (for_each_result before scan_line _) as [d1|]; [|done].
    cbn [mbind result_bind for_each_result] in Hread.
    rewrite scan_line_recognized, Hr, Hv in Hread. cbn [mbind result_bind] in Hread.
    replace (stored_value l "NA") with (Ok (match l with Gender => Str "NA" | _ => NaN end))
      in Hread by (by destruct l).
    cbn [mbind result_bind] in Hread.
    erewrite scan_lines_other; [|exact Hread|].
    + by rewrite lookup_insert_eq.
    + eapply Forall_impl; [exact Hafter|]. simpl.
      intros raw Hraw l' Hl' Heq. apply label_key_inj in Heq. congruence.
Qed.

(** ** The segmentation extractor *)

Lemma for_each_skip {A S} (pre post : list A) (x : A) (body : S → A → io S) s :
  (∀ s', body s' x = mret s') →
  for_each (pre ++ x :: post) body s = for_each (pre ++ post) body s.
Proof.
  intros Hx. revert s. induction pre as [|a pre IH]; intros s.
  - cbn [app]. rewrite for_each_cons, Hx. apply (io_bind_ret s).
  - cbn [app]. rewrite !for_each_cons.
    unfold mbind, io_bind. destruct (body s a) as [t [s'|e]]; [|done]. by rewrite IH.
Qed.

Lemma for_each_skip_result {A S} (pre post : list A) (x : A) (body : S → A → io S) s :
  (∀ s', (body s' x).2 = Ok s') →
  (for_each (pre ++ x :: post) body s).2 = (for_each (pre ++ post) body s).2.
Proof.
  intros Hx. revert s. induction pre as [|a pre IH]; intros s.
  - cbn [app]. by rewrite for_each_cons, io_bind_result, Hx.
  - cbn [app]. rewrite !for_each_cons, !io_bind_result.
    destruct (body s a).2; [apply IH|done].
Qed.

Lemma for_each_replace {A S} (pre post : list A) (x x' : A) (body : S → A → io S) s :
  (∀ s', body s' x = body s' x') →
  for_each (pre ++ x :: post) body s = for_each (pre ++ x' :: post) body s.
Proof.
  intros Hx. revert s. induction pre as [|a pre IH]; intros s.
  - cbn [app]. by rewrite !for_each_cons, Hx.
  - cbn [app]. rewrite !for_each_cons.
    unfold mbind, io_bind. destruct (body s a) as [t [s'|e]]; [|done]. by rewrite IH.
Qed.

Lemma for_each_silent {A S} (xs : list A) (body : S → A → io S) s :
  (∀ s' x, (body s' x).1 = []) → (for_each xs body s).1 = [].
Proof.
  intros Hb. revert s. induction xs as [|x xs IH]; intros s; [done|].
  rewrite for_each_cons, io_bind_trace, Hb. destruct (body s x).2; [apply IH|done].
Qed.

Lemma for_each_no_hit xs (body : list seg_row → string * node → io (list seg_row)) suffix s :
  (∀ s' x, endswith x.1 suffix = false → body s' x = mret s') →
  first_with_suffix suffix xs = None →
  for_each xs body s = mret s.
Proof.
  intros Hb. induction xs as [|[file_name nd] xs IH]; [done|]. cbn [first_with_suffix].
  destruct (endswith file_name suffix) eqn:E; [done|]. intros Hf.
  rewrite for_each_cons, Hb by done. rewrite io_bind_ret. by apply IH.
Qed.

Lemma cna_file_other choice data file_name nd :
  endswith file_name ".cna.seg" = false → cna_file choice data (file_name, nd) = mret data.
Proof. intros E. unfold cna_file. by rewrite E. Qed.

Lemma cna_file_silent choice data entry : (cna_file choice data entry).1 = [].
Proof.
  destruct entry as [file_name nd]. unfold cna_file.
  destruct (endswith file_name ".cna.seg"); [|done].
  destruct nd as [content|]; [|done].
  rewrite lift_bind. destruct (read_csv content) as [df|]; [|done].
  case_bool_decide; [|done].
  rewrite lift_bind. by destruct (extract_columns _ _ _).
Qed.

Lemma cna_item_silent choice data entry : (cna_item choice data entry).1 = [].
Proof.
  destruct entry as [item [c|files]]; [done|]. simpl.
  apply for_each_silent. intros. apply cna_file_silent.
Qed.

(** The segmentation extractor prints nothing at all. *)
Lemma extract_cna_data_silent root choice : (extract_cna_data root choice).1 = [].
Proof.
  unfold extract_cna_data. rewrite io_bind_trace.
  rewrite for_each_silent by (intros; apply cna_item_silent).
  by destruct (for_each _ _ _).2.
Qed.

Lemma cna_file_missing_column choice data file_name content df :
  read_csv content = Ok df →
  replace file_name ".cna.seg" EmptyString +:+ "." +:+ choice ∉ columns df →
  cna_file choice data (file_name, File content) = mret data.
Proof.
  intros Hr Hc. unfold cna_file. destruct (endswith file_name ".cna.seg"); [|done].
  rewrite Hr, lift_bind. by rewrite bool_decide_eq_false_2.
Qed.

Lemma for_each_trace_prefix {A S} (xs ys : list A) (body : S → A → io S) s t s' :
  for_each xs body s = (t, Ok s') →
  (for_each (xs ++ ys) body s).1 = t ++ (for_each ys body s').1.
Proof.
  intros Hxs. rewrite for_each_app, Hxs. unfold mbind, io_bind.
  by destruct (for_each ys body s').
Qed.

Lemma for_each_tf_sample_reaches root acc :
  Forall (λ sf : string * node, ∃ d, read_params sf.1 sf.2 = Ok d) (samples_with_params root) →
  ∃ t data_list, for_each root tf_sample acc = (t, Ok data_list).
Proof.
  unfold samples_with_params. revert acc.
  induction root as [|[folder nd] root IH]; intros acc Hall; [by exists [], acc|].
  rewrite for_each_cons. destruct nd as [c|files].
  - rewrite omap_cons_None in Hall by done. cbn [tf_sample]. rewrite io_bind_ret. by apply IH.
  - destruct (first_with_suffix ".params.txt" files) as [[file_name f]|] eqn:E.
    + rewrite (omap_cons_Some _ _ (folder, f)) in Hall
        by (unfold params_file_of; simpl; by rewrite E).
      apply Forall_cons in Hall as [[d Hd] Hall]. cbn [fst snd] in Hd.
      cbv beta iota delta [tf_sample]. rewrite E, Hd, lift_bind, io_bind_ret. by apply IH.
    + rewrite omap_cons_None in Hall by (unfold params_file_of; simpl; by rewrite E).
      destruct (IH acc Hall) as (t & dl & Hrec).
      exists (Stdout (no_params_message folder) :: t), dl.
      rewrite tf_sample_unmatched by done. unfold mbind, io_bind. by rewrite Hrec.
Qed.

(** C5 (amended): a sample folder that holds no parameter file does not
    change the outcome of the parameter extraction (no record, no failure),
    and a diagnostic is printed for it whenever the extraction gets to it,
    that is, whenever the parameter files of the folders listed before it
    were read without error; a sample folder that holds no segmentation file
    does not change the outcome of the segmentation extraction either, which
    prints no diagnostic. *)
Theorem missing_file_nonfatal (pre post : list (string * node)) (folder : string)
    (files : list (string * node)) :
  (first_with_suffix ".params.txt" files = None →
     (extract_tf_data (pre ++ (folder, Dir files) :: post)).2 = (extract_tf_data (pre ++ post)).2 ∧
     (Forall (λ sf : string * node, ∃ d, read_params sf.1 sf.2 = Ok d) (samples_with_params pre) →
        Stdout (no_params_message folder) ∈ (extract_tf_data (pre ++ (folder, Dir files) :: post)).1)) ∧
  (first_with_suffix ".cna.seg" files = None → ∀ choice,
     extract_cna_data (pre ++ (folder, Dir files) :: post) choice = extract_cna_data (pre ++ post) choice ∧
     (extract_cna_data (pre ++ (folder, Dir files) :: post) choice).1 = []).
Proof.
  split.
  - intros Hf. split.
    + unfold extract_tf_data. rewrite !io_bind_result.
      rewrite for_each_skip_result; [done|].
      intros s'. by rewrite tf_sample_unmatched.
    + intros Hpre. destruct (for_each_tf_sample_reaches pre [] Hpre) as (t & dl & Hloop).
      unfold extract_tf_data. rewrite io_bind_trace.
      rewrite (for_each_trace_prefix _ _ _ _ _ _ Hloop), for_each_cons.
      rewrite tf_sample_unmatched, io_bind_trace by done. cbn [fst].
      apply elem_of_app. left. apply elem_of_app. right. apply elem_of_app. left. by left.
  - intros Hf choice. split; [|apply extract_cna_data_silent].
    unfold extract_cna_data. rewrite for_each_skip; [done|].
    intros s'. simpl. apply (for_each_no_hit _ _ ".cna.seg"); [|done].
    intros s'' [file_name nd] E. by apply cna_file_other.
Qed.

(** C6: a segmentation file whose header lacks the column named by the
    library identifier, a dot and the selector is skipped silently: the
    extractor behaves as if the file were not there (no row from it, no
    error because of it) and prints nothing. *)
Theorem missing_column_skipped (pre post before after : list (string * node))
    (folder file_name choice : string) (content : file_content) (df : DataFrame) :
  endswith file_name ".cna.seg" = true →
  read_csv content = Ok df →
  replace file_name ".cna.seg" EmptyString +:+ "." +:+ choice ∉ columns df →
  extract_cna_data (pre ++ (folder, Dir (before ++ (file_name, File content) :: after)) :: post) choice
    = extract_cna_data (pre ++ (folder, Dir (before ++ after)) :: post) choice ∧
  (extract_cna_data (pre ++ (folder, Dir (before ++ (file_name, File content) :: after)) :: post) choice).1 = [].
Proof.
  intros _ Hr Hc. split; [|apply extract_cna_data_silent].
  unfold extract_cna_data. f_equal. apply for_each_replace. intros s'. simpl.
  apply for_each_skip. intros s''. by eapply cna_file_missing_column.
Qed.

Lemma get_loc_Ok df name i : get_loc df name = Ok i → index_of name (columns df) = Some i.
Proof. unfold get_loc. destruct (index_of _ _); [|done]. by intros [= ->]. Qed.

Lemma extract_columns_Ok df library column extracted :
  extract_columns df library column = Ok extracted →
  extracted = (λ r, {| library := library; chr := at_column df r "chr";
                       start := at_column df r "start"; end_ := at_column df r "end";
                       logR := at_column df r column |}) <$> rows df.
Proof.
  unfold extract_columns, at_column.
  destruct (get_loc df "chr") as [i1|] eqn:H1; [|done].
  destruct (get_loc df "start") as [i2|] eqn:H2; [|done].
  destruct (get_loc df "end") as [i3|] eqn:H3; [|done].
  destruct (get_loc df column) as [i4|] eqn:H4; [|done].
  apply get_loc_Ok in H1, H2, H3, H4. rewrite H1, H2, H3, H4.
  cbn [mbind result_bind]. by intros [= <-].
Qed.

(** One file of a sample folder, when its turn completes: its tagged rows
    are appended. *)
Lemma cna_file_Ok choice data entry t data' :
  cna_file choice data entry = (t, Ok data') →
  data' = data ++ concat (file_rows (λ name, replace name ".cna.seg" EmptyString) choice <$> omap seg_file_of [entry]).
Proof.
  destruct entry as [file_name nd]. unfold cna_file.
  destruct (endswith file_name ".cna.seg") eqn:E; [destruct nd as [content|]|].
  - rewrite (omap_cons_Some _ _ (file_name, content))
      by (unfold seg_file_of; simpl; by rewrite E).
    intros Hf. csimpl. rewrite (right_id_L [] (++)). unfold file_rows, tagged_rows. cbn [fst snd].
    rewrite lift_bind in Hf. destruct (read_csv content) as [df|]; [|done].
    case_bool_decide.
    + rewrite lift_bind in Hf. destruct (extract_columns _ _ _) as [ex|] eqn:He; [|done].
      injection Hf as _ <-. by apply extract_columns_Ok in He as ->.
    + injection Hf as _ <-. by rewrite (right_id_L [] (++)).
  - rewrite omap_cons_None by done. intros [= _ <-]. csimpl. by rewrite (right_id_L [] (++)).
  - rewrite omap_cons_None by (unfold seg_file_of; simpl; rewrite E; by destruct nd).
    intros [= _ <-]. csimpl. by rewrite (right_id_L [] (++)).
Qed.

Lemma for_each_cna_file choice files data t data' :
  for_each files (cna_file choice) data = (t, Ok data') →
  data' = data ++ concat (file_rows (λ name, replace name ".cna.seg" EmptyString) choice <$> omap seg_file_of files).
Proof.
  revert data t. induction files as [|entry files IH]; intros data t Hf.
  - injection Hf as _ <-. csimpl. by rewrite (right_id_L [] (++)).
  - rewrite for_each_cons in Hf.
    apply io_bind_Ok in Hf as (t1 & a & t2 & H1 & H2 & ->).
    apply cna_file_Ok in H1 as ->. apply IH in H2 as ->.
    change (entry :: files) with ([entry] ++ files).
    by rewrite omap_app, fmap_app, concat_app, (assoc_L (++)).
Qed.

Lemma for_each_cna_item choice root data t data' :
  for_each root (cna_item choice) data = (t, Ok data') →
  data' = data ++ concat (file_rows (λ name, replace name ".cna.seg" EmptyString) choice <$> seg_files root).
Proof.
  unfold seg_files. revert data t. induction root as [|[item nd] root IH]; intros data t Hf.
  - injection Hf as _ <-. csimpl. by rewrite (right_id_L [] (++)).
  - rewrite for_each_cons in Hf.
    apply io_bind_Ok in Hf as (t1 & a & t2 & H1 & H2 & ->).
    apply IH in H2 as ->. cbn [fmap list_fmap concat snd].
    destruct nd as [c|files].
    + by injection H1 as _ <-.
    + cbn [cna_item] in H1. apply for_each_cna_file in H1 as ->.
      by rewrite fmap_app, concat_app, (assoc_L (++)).
Qed.

Lemma sort_values_Ok table sorted : sort_values table = Ok sorted → sorted ≡ₚ table.
Proof.
  unfold sort_values. destruct (_ && _); [|done]. intros [= <-].
  apply merge_sort_Permutation.
Qed.

(** What the segmentation extractor returns, with the library as the
    extractor derives it (every occurrence of .cna.seg removed from the file
    name): exactly once each, the data rows of every segmentation file of a
    sample folder whose header has the column library.selector, with the
    library tag, chr, start, end and the value unchanged, and nothing else. *)
Theorem extract_cna_data_rows (root : list (string * node)) (choice : string) t (table : list seg_row) :
  extract_cna_data root choice = (t, Ok table) →
  table ≡ₚ concat (file_rows (λ name, replace name ".cna.seg" EmptyString) choice <$> seg_files root).
Proof.
  unfold extract_cna_data. intros Hf.
  apply io_bind_Ok in Hf as (t1 & data & t2 & H1 & H2 & ->).
  apply for_each_cna_item in H1 as ->. injection H2 as _ H2.
  by apply sort_values_Ok in H2.
Qed.

(** ** The archive builders *)

Lemma first_with_suffix_Some suffix files file_name f :
  first_with_suffix suffix files = Some (file_name, f) →
  ∃ before after, files = before ++ (file_name, f) :: after ∧
    endswith file_name suffix = true ∧
    Forall (λ e : string * node, endswith e.1 suffix = false) before.
Proof.
  induction files as [|[n nd] files IH]; [done|]. cbn [first_with_suffix].
  destruct (endswith n suffix) eqn:E.
  - intros [= -> ->]. by exists [], files.
  - intros (before & after & -> & ? & ?)%IH.
    exists ((n, nd) :: before), after. split; [done|]. split; [done|]. by constructor.
Qed.

(** The loop of an archive builder always completes: the members are the
    first matching files, in listing order, and a message is printed for
    each folder without one. *)
Lemma for_each_zip_sample suffix message root zipf :
  for_each root (zip_sample suffix message) zipf =
    ((λ folder, Stdout (message folder)) <$> omap (unmatched suffix) root,
     Ok (zipf ++ omap (archived suffix) root)).
Proof.
  revert zipf. induction root as [|[folder nd] root IH]; intros zipf.
  - cbn. by rewrite (right_id_L [] (++)).
  - rewrite for_each_cons. destruct nd as [c|files].
    + rewrite !omap_cons_None by done. cbn [zip_sample]. by rewrite io_bind_ret, IH.
    + cbn [zip_sample]. destruct (first_with_suffix suffix files) as [[file_name f]|] eqn:E.
      * rewrite io_bind_ret, IH.
        rewrite omap_cons_None by (unfold unmatched; simpl; by rewrite E).
        rewrite (omap_cons_Some _ _ (zip_write file_name f))
          by (unfold archived; simpl; by rewrite E).
        by rewrite <- (assoc_L (++)).
      * rewrite (omap_cons_Some _ _ folder) by (unfold unmatched; simpl; by rewrite E).
        rewrite omap_cons_None by (unfold archived; simpl; by rewrite E).
        unfold print. unfold mbind at 1 2, io_bind. cbn [mret io_ret]. by rewrite IH.
Qed.

Lemma archived_members suffix root :
  Forall2 (λ (entry : string * node) member, ∃ files before file_name f after,
      entry.2 = Dir files ∧ files = before ++ (file_name, f) :: after ∧
      endswith file_name suffix = true ∧
      Forall (λ e : string * node, endswith e.1 suffix = false) before ∧
      member = zip_write file_name f)
    (filter (holds_file suffix) root) (omap (archived suffix) root).
Proof.
  induction root as [|[folder nd] root IH]; [constructor|].
  rewrite filter_cons. destruct nd as [c|files].
  - rewrite omap_cons_None by done. by rewrite decide_False by (by intros ?).
  - rewrite holds_file_Dir.
    destruct (first_with_suffix suffix files) as [[file_name f]|] eqn:E.
    + rewrite (omap_cons_Some _ _ (zip_write file_name f))
        by (unfold archived; simpl; by rewrite E).
      destruct (existsb _ files) eqn:Ex.
      * rewrite decide_True by done. constructor; [|done].
        apply first_with_suffix_Some in E as (before & after & -> & ? & ?).
        exists (before ++ (file_name, f) :: after), before, file_name, f, after. eauto.
      * apply first_with_suffix_None in Ex. congruence.
    + rewrite omap_cons_None by (unfold archived; simpl; by rewrite E).
      apply first_with_suffix_None in E. rewrite E.
      by rewrite decide_False by (by intros ?).
Qed.

(** C8: the parameter archive is always created; it holds exactly one
    member for each sample folder that has a file ending in .params.txt, in
    listing order, that member being the first such file of the folder's
    listing, stored under its own file name without a directory prefix; for
    every folder without such a file a diagnostic is printed. *)
Theorem create_params_zip_members (root : list (string * node)) (output_zip : string) :
  ∃ members diagnostics,
    create_params_zip root output_zip =
      ((Stdout <$> diagnostics) ++ [WriteFile output_zip (ZipFile members)], Ok tt) ∧
    Forall2 (λ (entry : string * node) member, ∃ files before file_name f after,
        entry.2 = Dir files ∧ files = before ++ (file_name, f) :: after ∧
        endswith file_name ".params.txt" = true ∧
        Forall (λ e : string * node, endswith e.1 ".params.txt" = false) before ∧
        member = zip_write file_name f ∧
        ∀ content, f = File content → member = {| arcname := file_name; stored := Some content |})
      (filter (holds_file ".params.txt") root) members ∧
    ∀ folder files, (folder, Dir files) ∈ root →
      holds_file ".params.txt" (folder, Dir files) = false →
      no_params_message folder ∈ diagnostics.
Proof.
  exists (omap (archived ".params.txt") root),
         (no_params_message <$> omap (unmatched ".params.txt") root).
  split; [|split].
  - unfold create_params_zip. rewrite for_each_zip_sample.
    unfold write_file, mbind, io_bind. by rewrite <- list_fmap_compose.
  - eapply Forall2_impl; [apply archived_members|]. simpl.
    intros entry member (files & before & file_name & f & after & ? & ? & ? & ? & ->).
    exists files, before, file_name, f, after. repeat split; try done. by intros content ->.
  - intros folder files Hin Hh. apply list_elem_of_fmap. exists folder. split; [done|].
    apply list_elem_of_omap. exists (folder, Dir files). split; [done|].
    rewrite holds_file_Dir in Hh. apply first_with_suffix_None in Hh.
    unfold unmatched. simpl. by rewrite Hh.
Qed.

(** ** The pivot step *)

Lemma index_of_Some name names j :
  index_of name names = Some j → names !! j = Some name.
Proof.
  revert j. induction names as [|n names IH]; intros j; [done|]. cbn [index_of].
  destruct (String.eqb n name) eqn:E.
  - intros [= <-]. by apply String.eqb_eq in E as ->.
  - destruct (index_of name names) as [i|]; [|done]. intros [= <-]. by apply IH.
Qed.

Lemma index_of_elem name names : name ∈ names → is_Some (index_of name names).
Proof.
  induction names as [|n names IH]; [by intros ?%elem_of_nil|]. cbn [index_of].
  destruct (String.eqb n name) eqn:E; [eauto|].
  intros [->|Hin]%elem_of_cons.
  - by rewrite String.eqb_refl in E.
  - destruct (IH Hin) as [i ->]. eauto.
Qed.

Lemma index_of_cons_ne name n names :
  n ≠ name → index_of name (n :: names) = S <$> index_of name names.
Proof. intros Hne. cbn [index_of]. apply String.eqb_neq in Hne. by rewrite Hne. Qed.

Lemma zip_with_fmap_r {A B C} (f : A → B → C) (g : A → B) l :
  zip_with f l (g <$> l) = (λ x, f x (g x)) <$> l.
Proof. induction l as [|x l IH]; csimpl; [done|]. by rewrite IH. Qed.

Lemma filter_fmap_none {A B} (g : A → B) (P : B → Prop) `{∀ y, Decision (P y)} l :
  (∀ y, y ∈ l → ¬ P (g y)) → filter P (g <$> l) = [].
Proof.
  induction l as [|a l IH]; intros Hn; [done|]. csimpl. rewrite filter_cons.
  rewrite decide_False by (apply Hn; left). apply IH. intros y Hy. apply Hn. by right.
Qed.

Lemma filter_fmap_unique {A B} (g : A → B) (P : B → Prop) `{∀ y, Decision (P y)} l x :
  NoDup l → x ∈ l → (∀ y, P (g y) ↔ y = x) → filter P (g <$> l) = [g x].
Proof.
  intros Hnd Hx HP. induction Hnd as [|a l Ha Hnd IH]; [by apply elem_of_nil in Hx|].
  csimpl. rewrite filter_cons. destruct (decide (P (g a))) as [Hp|Hp].
  - apply HP in Hp as ->. f_equal. apply filter_fmap_none.
    intros y Hy Hp. apply HP in Hp as ->. done.
  - apply IH. apply elem_of_cons in Hx as [->|?]; [|done].
    exfalso. by apply Hp, HP.
Qed.

(** With unique keys, the value found at a row's interval and library is
    that row's value. *)
Lemma value_at_elem table r :
  NoDup (pivot_key <$> table) → r ∈ table →
  value_at table (interval_of r) (library r) = logR r.
Proof.
  induction table as [|r0 table IH]; intros Hnd Hr; [by apply elem_of_nil in Hr|].
  csimpl in Hnd. apply NoDup_cons in Hnd as [Hr0 Hnd]. cbn [value_at].
  apply elem_of_cons in Hr as [->|Hr]; [by rewrite bool_decide_eq_true_2|].
  case_bool_decide as Hk; [|by apply IH].
  exfalso. apply Hr0. apply list_elem_of_fmap. exists r. split; [|done].
  by rewrite Hk.
Qed.

Lemma value_at_none table i lib :
  (∀ r, r ∈ table → pivot_key r ≠ (i, lib)) → value_at table i lib = NaN.
Proof.
  induction table as [|r0 table IH]; intros Hn; [done|]. cbn [value_at].
  rewrite bool_decide_eq_false_2 by (apply Hn; left).
  apply IH. intros r Hr. apply Hn. by right.
Qed.

Lemma pivot_Ok table p :
  pivot table = Ok p →
  NoDup (pivot_key <$> table) ∧
  pivot_index p ≡ₚ remove_dups (interval_of <$> table) ∧
  pivot_columns p ≡ₚ remove_dups (library <$> table) ∧
  pivot_values p = (λ i, (λ lib, value_at table i lib) <$> pivot_columns p) <$> pivot_index p.
Proof.
  unfold pivot. case_bool_decide; [|done]. intros [= <-]. cbn.
  split; [done|]. split; [apply merge_sort_Permutation|].
  split; [apply merge_sort_Permutation|done].
Qed.

Lemma reset_index_Ok p m :
  reset_index p = Ok m →
  ("chr" ∉ pivot_columns p) ∧ ("start" ∉ pivot_columns p) ∧ ("end" ∉ pivot_columns p) ∧
  columns m = ["chr"; "start"; "end"] ++ pivot_columns p ∧
  rows m = zip_with (λ (i : interval) values, [i.1.1; i.1.2; i.2] ++ values)
             (pivot_index p) (pivot_values p).
Proof.
  unfold reset_index. case_bool_decide as Hc; [done|]. intros [= <-]. cbn.
  repeat split; try done; intros ?; apply Hc; auto.
Qed.

(** The row of the reset matrix for an interval of the index. *)
Lemma reset_index_rows table p m :
  pivot table = Ok p → reset_index p = Ok m →
  rows m = (λ i : interval, [i.1.1; i.1.2; i.2] ++ ((λ lib, value_at table i lib) <$> pivot_columns p))
             <$> pivot_index p.
Proof.
  intros (_ & _ & _ & Hv)%pivot_Ok (_ & _ & _ & _ & Hr)%reset_index_Ok.
  by rewrite Hr, Hv, zip_with_fmap_r.
Qed.

Lemma at_column_library table p m (i : interval) lib :
  pivot table = Ok p → reset_index p = Ok m →
  lib ∈ pivot_columns p →
  at_column m ([i.1.1; i.1.2; i.2] ++ ((λ lib, value_at table i lib) <$> pivot_columns p)) lib
    = value_at table i lib.
Proof.
  intros _ (H1 & H2 & H3 & Hc & _)%reset_index_Ok Hlib.
  unfold at_column. rewrite Hc. cbn [app].
  rewrite !index_of_cons_ne by (intros <-; done).
  destruct (index_of_elem _ _ Hlib) as [j Hj]. rewrite Hj. cbn [fmap option_fmap option_map].
  apply index_of_Some in Hj.
  apply list_lookup_total_correct.
  change (((λ lib0, value_at table i lib0) <$> pivot_columns p) !! j = Some (value_at table i lib)).
  by rewrite list_lookup_fmap, Hj.
Qed.

Lemma pivot_duplicates table :
  ¬ NoDup (pivot_key <$> table) → pivot table = Raise ValueError.
Proof. intros Hd. unfold pivot. by rewrite bool_decide_eq_false_2. Qed.

Lemma pivot_unique table :
  NoDup (pivot_key <$> table) → ∃ p, pivot table = Ok p.
Proof. intros Hd. unfold pivot. rewrite bool_decide_eq_true_2 by done. eauto. Qed.

Lemma pivot_values_lookup table p i j (iv : interval) lib :
  pivot table = Ok p →
  pivot_index p !! i = Some iv → pivot_columns p !! j = Some lib →
  (pivot_values p !!! i) !!! j = value_at table iv lib.
Proof.
  intros (_ & _ & _ & Hv)%pivot_Ok Hi Hj.
  assert (pivot_values p !!! i = (λ lib, value_at table iv lib) <$> pivot_columns p) as ->.
  { apply list_lookup_total_correct. by rewrite Hv, list_lookup_fmap, Hi. }
  apply list_lookup_total_correct. by rewrite list_lookup_fmap, Hj.
Qed.

(** The frame [pivot] returns for a table with unique keys, and the matrix
    [reset_index] makes of it when it makes one. *)
Lemma pivot_frames (table : list seg_row) :
  NoDup (pivot_key <$> table) →
  ∃ p, pivot table = Ok p ∧
    NoDup (pivot_index p) ∧ NoDup (pivot_columns p) ∧
    (∀ r, r ∈ table → ∃ i j,
       pivot_index p !! i = Some (interval_of r) ∧
       pivot_columns p !! j = Some (library r) ∧
       (pivot_values p !!! i) !!! j = logR r) ∧
    (∀ i j iv lib,
       pivot_index p !! i = Some iv → pivot_columns p !! j = Some lib →
       (∀ r, r ∈ table → pivot_key r ≠ (iv, lib)) →
       (pivot_values p !!! i) !!! j = NaN) ∧
    (∀ m, reset_index p = Ok m →
       (∀ r, r ∈ table →
          ∃ row, filter (λ row', take 3 row' = [chr r; start r; end_ r]) (rows m) = [row] ∧
                 at_column m row (library r) = logR r) ∧
       (∀ row lib, row ∈ rows m → lib ∈ library <$> table →
          (∀ r, r ∈ table → pivot_key r ≠ ((row !!! 0%nat, row !!! 1%nat, row !!! 2%nat), lib)) →
          at_column m row lib = NaN)).
Proof.
  intros Hnd. destruct (pivot_unique _ Hnd) as [p Hp]. exists p. split; [done|].
  pose proof (pivot_Ok _ _ Hp) as (_ & Hidx & Hcols & _).
  assert (NoDup (pivot_index p)) as Hni by (rewrite Hidx; apply NoDup_remove_dups).
  assert (NoDup (pivot_columns p)) as Hnc by (rewrite Hcols; apply NoDup_remove_dups).
  assert (∀ r, r ∈ table → interval_of r ∈ pivot_index p) as Hin_i.
  { intros r Hr. rewrite Hidx. apply elem_of_remove_dups, list_elem_of_fmap. eauto. }
  assert (∀ r, r ∈ table → library r ∈ pivot_columns p) as Hin_c.
  { intros r Hr. rewrite Hcols. apply elem_of_remove_dups, list_elem_of_fmap. eauto. }
  split; [done|]. split; [done|]. split; [|split].
  - intros r Hr.
    destruct (proj1 (list_elem_of_lookup _ _) (Hin_i r Hr)) as [i Hi].
    destruct (proj1 (list_elem_of_lookup _ _) (Hin_c r Hr)) as [j Hj].
    exists i, j. split; [done|]. split; [done|].
    rewrite (pivot_values_lookup table p i j _ _ Hp Hi Hj). by apply value_at_elem.
  - intros i j iv lib Hi Hj Hnone.
    rewrite (pivot_values_lookup table p i j _ _ Hp Hi Hj). by apply value_at_none.
  - intros m Hm. pose proof (reset_index_rows _ _ _ Hp Hm) as Hrows. split.
    + intros r Hr.
      exists ([chr r; start r; end_ r] ++ ((λ lib, value_at table (interval_of r) lib) <$> pivot_columns p)).
      split.
      * rewrite Hrows.
        apply (filter_fmap_unique
                 (λ i : interval, [i.1.1; i.1.2; i.2] ++ ((λ lib, value_at table i lib) <$> pivot_columns p))
                 _ _ (interval_of r)); [done|by apply Hin_i|].
        intros [[c s] e]. unfold interval_of. cbn.
        split; [by intros [= -> -> ->]|by intros [= -> -> ->]].
      * rewrite (at_column_library table p m (interval_of r)); [by apply value_at_elem|done..|].
        by apply Hin_c.
    + intros row lib Hrow Hlib Hnone. rewrite Hrows in Hrow.
      apply list_elem_of_fmap in Hrow as (i & -> & Hi).
      rewrite (at_column_library table p m i); [|done..|].
      * apply value_at_none. intros r Hr. specialize (Hnone r Hr).
        destruct i as [[c s] e]. exact Hnone.
      * rewrite Hcols. by apply elem_of_remove_dups.
Qed.

(** The pivot step of [main], [pivot] followed by [reset_index], succeeds on
    unique keys unless a library is named like one of the index columns. *)
Lemma pivot_step_Ok (table : list seg_row) :
  NoDup (pivot_key <$> table) →
  Forall (λ r, library r ∉ ["chr"; "start"; "end"]) table →
  ∃ p m, pivot table = Ok p ∧ reset_index p = Ok m.
Proof.
  intros Hnd Hres. destruct (pivot_unique _ Hnd) as [p Hp]. exists p.
  pose proof (pivot_Ok _ _ Hp) as (_ & _ & Hcols & _).
  assert (∀ name, name ∈ ["chr"; "start"; "end"] → name ∉ pivot_columns p) as Hfree.
  { intros name Hname Hin. rewrite Hcols in Hin.
    apply elem_of_remove_dups, list_elem_of_fmap in Hin as (r & -> & Hr).
    rewrite Forall_forall in Hres. by apply (Hres r Hr). }
  unfold reset_index. rewrite bool_decide_eq_false_2; [eauto|].
  intros [Hc|[Hc|Hc]]; revert Hc; apply Hfree; repeat constructor.
Qed.

Lemma pivot_step_reserved (table : list seg_row) r :
  NoDup (pivot_key <$> table) →
  r ∈ table → library r ∈ ["chr"; "start"; "end"] →
  pivot table ≫= reset_index = Raise ValueError.
Proof.
  intros Hnd Hr Hres. destruct (pivot_unique _ Hnd) as [p Hp]. rewrite Hp.
  cbn [mbind result_bind]. pose proof (pivot_Ok _ _ Hp) as (_ & _ & Hcols & _).
  assert (library r ∈ pivot_columns p) as Hin.
  { rewrite Hcols. apply elem_of_remove_dups, list_elem_of_fmap. eauto. }
  unfold reset_index. rewrite bool_decide_eq_true_2; [done|].
  apply elem_of_cons in Hres as [E|Hres]; [left; by rewrite <- E|].
  apply elem_of_cons in Hres as [E|Hres]; [right; left; by rewrite <- E|].
  apply elem_of_cons in Hres as [E|Hres]; [right; right; by rewrite <- E|].
  by apply elem_of_nil in Hres.
Qed.

(** C2 (amended): for a long-format table with unique (library, chr, start,
    end) keys in which no library is named chr, start or end, the pivot step
    produces a wide matrix; for every row of the table that matrix has
    exactly one row for the row's (chr, start, end) triple, and in it the
    column named by the library holds the row's value; where the table has
    no record for an interval and a library, the cell is missing (NaN). *)
Theorem pivot_consistent (table : list seg_row) :
  NoDup (pivot_key <$> table) →
  Forall (λ r, library r ∉ ["chr"; "start"; "end"]) table →
  ∃ m, pivot table ≫= reset_index = Ok m ∧
    (∀ r, r ∈ table →
       ∃ row, filter (λ row', take 3 row' = [chr r; start r; end_ r]) (rows m) = [row] ∧
              at_column m row (library r) = logR r) ∧
    (∀ row lib, row ∈ rows m → lib ∈ library <$> table →
       (∀ r, r ∈ table → pivot_key r ≠ ((row !!! 0%nat, row !!! 1%nat, row !!! 2%nat), lib)) →
       at_column m row lib = NaN).
Proof.
  intros Hnd Hres. destruct (pivot_step_Ok _ Hnd Hres) as (p & m & Hp & Hm).
  exists m. split; [by rewrite Hp|].
  destruct (pivot_frames table Hnd) as (p' & Hp' & _ & _ & _ & _ & Hmat).
  assert (p' = p) as -> by congruence. by apply Hmat.
Qed.

Lemma pivot_reset_error table e :
  pivot table ≫= reset_index = Raise e → e = ValueError.
Proof.
  unfold pivot. case_bool_decide; [|by intros [= <-]]. cbn [mbind result_bind].
  unfold reset_index. case_bool_decide; [by intros [= <-]|done].
Qed.

Lemma extract_tf_data_prints root t r :
  extract_tf_data root = (t, r) → Forall (λ e, is_write e = false) t.
Proof.
  unfold extract_tf_data. intros Hf.
  assert (∀ xs acc, Forall (λ e, is_write e = false) (for_each xs tf_sample acc).1) as Hloop.
  { induction xs as [|[folder nd] xs IH]; intros acc; [constructor|].
    rewrite for_each_cons, io_bind_trace. apply Forall_app. split.
    - destruct nd as [c|files]; [constructor|]. cbn [tf_sample].
      destruct (first_with_suffix _ files) as [[file_name f]|].
      + rewrite lift_bind. destruct (read_params folder f); constructor.
      + repeat constructor.
    - destruct (tf_sample acc (folder, nd)).2; [apply IH|constructor]. }
  apply (f_equal fst) in Hf. rewrite io_bind_trace in Hf. cbn [fst] in Hf. subst t.
  apply Forall_app. split; [apply Hloop|].
  destruct (for_each root tf_sample []).2; constructor.
Qed.

(** ** [main] *)

(** [main], once the three extractions have returned their tables: what
    remains is the two pivots, the five writes and the archives. *)
Lemma main_after_extraction (a : args) t1 tf t2 d1 t3 d2 :
  extract_tf_data (results_dir a) = (t1, Ok tf) →
  extract_cna_data (results_dir a) "logR" = (t2, Ok d1) →
  extract_cna_data (results_dir a) "logR_Copy_Number" = (t3, Ok d2) →
  ∀ e, pivot (normalize_cna (bam_name_pattern a) d1) ≫= reset_index = Raise e ∨
       (∃ m1, pivot (normalize_cna (bam_name_pattern a) d1) ≫= reset_index = Ok m1 ∧
              pivot (normalize_cna (bam_name_pattern a) d2) ≫= reset_index = Raise e) →
  main a = (MakeDirs (output_dir a) :: t1 ++ t2 ++ t3, Raise e).
Proof.
  intros H1 H2 H3 e He. unfold main. rewrite H1, H2, H3.
  unfold mbind at 1 2 3 4, io_bind. cbv zeta.
  destruct He as [He|(m1 & Hm1 & He)].
  - rewrite He. cbn. by rewrite !(right_id_L [] (++)).
  - rewrite Hm1. rewrite lift_bind. rewrite He. cbn. by rewrite !(right_id_L [] (++)).
Qed.

(** C10 (amended): a long-format table with two rows of the same (chr,
    start, end, library) key makes the pivot raise an error, and [main] then
    fails before any output file is written; on every table whose keys are
    unique and in which no library is named chr, start or end the pivot step
    (pivot, then reset_index) succeeds, and with unique keys and a library of
    such a name it raises [ValueError]. *)
Theorem pivot_duplicate_keys (a : args) t1 tf t2 d1 t3 d2 :
  extract_tf_data (results_dir a) = (t1, Ok tf) →
  extract_cna_data (results_dir a) "logR" = (t2, Ok d1) →
  extract_cna_data (results_dir a) "logR_Copy_Number" = (t3, Ok d2) →
  (∀ table, ¬ NoDup (pivot_key <$> table) → pivot table = Raise ValueError) ∧
  (¬ NoDup (pivot_key <$> normalize_cna (bam_name_pattern a) d1) ∨
   ¬ NoDup (pivot_key <$> normalize_cna (bam_name_pattern a) d2) →
     ∃ t, main a = (t, Raise ValueError) ∧ Forall (λ e, is_write e = false) t) ∧
  (∀ table, NoDup (pivot_key <$> table) →
     Forall (λ r, library r ∉ ["chr"; "start"; "end"]) table →
     ∃ m, pivot table ≫= reset_index = Ok m) ∧
  (∀ table r, NoDup (pivot_key <$> table) →
     r ∈ table → library r ∈ ["chr"; "start"; "end"] →
     pivot table ≫= reset_index = Raise ValueError).
Proof.
  intros H1 H2 H3. split; [apply pivot_duplicates|]. split; [|split].
  - intros Hd. exists (MakeDirs (output_dir a) :: t1 ++ t2 ++ t3). split.
    + apply (main_after_extraction a t1 tf t2 d1 t3 d2 H1 H2 H3).
      destruct (pivot (normalize_cna (bam_name_pattern a) d1) ≫= reset_index) as [m1|e] eqn:E1.
      * right. exists m1. split; [done|].
        destruct Hd as [Hd|Hd].
        -- apply pivot_duplicates in Hd. by rewrite Hd in E1.
        -- apply pivot_duplicates in Hd. by rewrite Hd.
      * left. by apply pivot_reset_error in E1 as ->.
    + constructor; [done|]. rewrite !Forall_app. split; [by eapply extract_tf_data_prints|].
      pose proof (extract_cna_data_silent (results_dir a) "logR") as S2.
      pose proof (extract_cna_data_silent (results_dir a) "logR_Copy_Number") as S3.
      rewrite H2 in S2. rewrite H3 in S3. simpl in S2, S3. subst. by split.
  - intros table Hnd Hres. destruct (pivot_step_Ok _ Hnd Hres) as (p & m & Hp & Hm).
    exists m. by rewrite Hp.
  - intros table r. apply pivot_step_reserved.
Qed.

(** * Further properties *)

(** ** Parameter files: which lines fail, and what the record holds *)

Lemma recognized_value_of line l :
  recognized line = Some l →
  ∃ t, after_colon line = Some t ∧ value_of line = Ok (strip (before_colon t)).
Proof.
  intros [t Ht]%recognized_after_colon. exists t. split; [done|].
  by rewrite value_of_after_colon, Ht.
Qed.

(** A line either stores its value or, when it is a bad number, raises
    [ValueError]; it never raises anything else. *)
Lemma scan_line_outcome (data : gmap string cell) raw :
  if bad_number raw then scan_line data raw = Raise ValueError
  else ∃ data', scan_line data raw = Ok data'.
Proof.
  rewrite scan_line_recognized. unfold bad_number.
  destruct (recognized (strip raw)) as [l|] eqn:Hr; [|eauto].
  destruct (recognized_value_of _ _ Hr) as (t & -> & ->). cbn [mbind result_bind].
  destruct (decide (l = Gender)) as [->|Hl].
  { rewrite bool_decide_eq_true_2 by done. cbn. eauto. }
  rewrite bool_decide_eq_false_2 by done. cbn [negb andb].
  replace (stored_value l (strip (before_colon t)))
    with (float_or_nan (strip (before_colon t))) by (by destruct l).
  unfold float_or_nan.
  destruct (String.eqb (strip (before_colon t)) "NA"); cbn [negb andb mbind result_bind]; [eauto|].
  destruct (float (strip (before_colon t))) as [x|] eqn:Hf.
  - rewrite bool_decide_eq_true_2 by eauto. cbn. eauto.
  - rewrite bool_decide_eq_false_2 by (by intros [? ?]). done.
Qed.

Lemma scan_lines_outcome lines (data : gmap string cell) :
  (Forall (λ raw, bad_number raw = false) lines → ∃ data', for_each_result lines scan_line data = Ok data') ∧
  (Exists (λ raw, bad_number raw = true) lines → for_each_result lines scan_line data = Raise ValueError).
Proof.
  revert data. induction lines as [|raw lines IH]; intros data.
  { split; [cbn; eauto|by intros ?%Exists_nil]. }
  cbn [for_each_result]. pose proof (scan_line_outcome data raw) as Ho.
  destruct (bad_number raw) eqn:Hb.
  - rewrite Ho. split; [|done]. intros [? _]%Forall_cons. congruence.
  - destruct Ho as [data' ->]. cbn [mbind result_bind]. destruct (IH data') as [IH1 IH2]. split.
    + intros [_ ?]%Forall_cons. auto.
    + intros [?|?]%Exists_cons; [congruence|auto].
Qed.

(** X1: once a parameter file is opened, the loop over its lines completes
    when none of them is a bad number (a numeric label whose trimmed value is
    neither NA nor a number) and raises [ValueError] when one is; in
    particular the second piece of the split always exists for a recognized
    line. *)
Theorem read_params_outcome (folder : string) (content : file_content) :
  (Forall (λ raw, bad_number raw = false) (readlines content) →
     ∃ data, read_params folder (File content) = Ok data) ∧
  (Exists (λ raw, bad_number raw = true) (readlines content) →
     read_params folder (File content) = Raise ValueError).
Proof. apply scan_lines_outcome. Qed.

Lemma read_params_error folder f e :
  read_params folder f = Raise e → e = ValueError ∨ e = IsADirectoryError.
Proof.
  destruct f as [content|]; [|intros [= <-]; by right].
  destruct (decide (Forall (λ raw, bad_number raw = false) (readlines content))) as [Hall|Hex].
  - apply scan_lines_outcome with (data := {["library" := Str folder]}) in Hall as [data Hd].
    cbn [read_params]. by rewrite Hd.
  - apply not_Forall_Exists in Hex; [|apply _].
    assert (Exists (λ raw, bad_number raw = true) (readlines content)) as Hex'.
    { eapply Exists_impl; [exact Hex|]. simpl. intros raw. by destruct (bad_number raw). }
    apply scan_lines_outcome with (data := {["library" := Str folder]}) in Hex'.
    cbn [read_params]. rewrite Hex'. intros [= <-]. by left.
Qed.

Lemma io_bind_Raise {A B} (m : io A) (f : A → io B) t e :
  m ≫= f = (t, Raise e) →
  m = (t, Raise e) ∨ ∃ t1 a t2, m = (t1, Ok a) ∧ f a = (t2, Raise e) ∧ t = t1 ++ t2.
Proof.
  unfold mbind, io_bind. destruct m as [t1 [a|e1]].
  - destruct (f a) as [t2 r] eqn:Hf. intros [= <- ->]. right. eauto 6.
  - intros [= <- <-]. by left.
Qed.

(** The loop over the sample folders in full: it stops at the first folder
    whose parameter file fails. *)
Lemma for_each_tf_sample_Raise root acc t e :
  for_each root tf_sample acc = (t, Raise e) →
  ∃ sf, sf ∈ samples_with_params root ∧ read_params sf.1 sf.2 = Raise e.
Proof.
  revert acc t. induction root as [|[folder nd] root IH]; intros acc t Hf; [done|].
  rewrite for_each_cons in Hf. unfold samples_with_params in *.
  destruct nd as [c|files].
  - cbn [tf_sample] in Hf. rewrite io_bind_ret in Hf. rewrite omap_cons_None by done. eauto.
  - cbv beta iota delta [tf_sample] in Hf.
    destruct (first_with_suffix ".params.txt" files) as [[file_name f]|] eqn:E.
    + rewrite (omap_cons_Some _ _ (folder, f)) by (unfold params_file_of; simpl; by rewrite E).
      rewrite lift_bind in Hf.
      destruct (read_params folder f) as [d|e'] eqn:Hd.
      * rewrite io_bind_ret in Hf. apply IH in Hf as (sf & ? & ?). exists sf. split; [by right|done].
      * injection Hf as _ <-. exists (folder, f). split; [left|done].
    + rewrite omap_cons_None by (unfold params_file_of; simpl; by rewrite E).
      apply io_bind_Raise in Hf as [Hf|(t1 & a & t2 & Hf & Hrec & _)].
      * unfold print, mbind, io_bind in Hf. by cbn in Hf.
      * unfold print, mbind, io_bind in Hf. cbn in Hf. injection Hf as _ <-. by eapply IH.
Qed.

Lemma for_each_tf_sample_complete root acc :
  Forall (λ sf : string * node, ∃ d, read_params sf.1 sf.2 = Ok d) (samples_with_params root) →
  ∃ t data_list, for_each root tf_sample acc = (t, Ok data_list).
Proof.
  intros Hall. destruct (for_each root tf_sample acc) as [t [dl|e]] eqn:Hf; [eauto|].
  apply for_each_tf_sample_Raise in Hf as (sf & Hin & Hr).
  rewrite Forall_forall in Hall. destruct (Hall sf Hin) as [d Hd]. congruence.
Qed.

(** Sorting a table whose library column holds strings only cannot fail. *)
Lemma sort_values_by_strings name (table : list (gmap string cell)) :
  Forall (λ r, ∃ s, r !! name = Some (Str s)) table →
  ∃ sorted, sort_values_by name table = Ok sorted.
Proof.
  intros Hall. unfold sort_values_by, sortable.
  assert (existsb is_real ((λ r : gmap string cell, r !!! name) <$> table) = false) as ->.
  { induction Hall as [|r table [s Hs] Hall IH]; [done|]. csimpl.
    rewrite lookup_total_alt, Hs. cbn. exact IH. }
  rewrite andb_false_r. cbn. eauto.
Qed.

Lemma frame_rows_strings (sfs : list (string * node)) (ds : list (gmap string cell)) :
  Forall2 (λ sf d, read_params sf.1 sf.2 = Ok d) sfs ds →
  Forall (λ r, ∃ s, r !! "library" = Some (Str s)) (frame_row tf_columns <$> ds).
Proof.
  intros [_ Hall]%frame_rows_libraries. eapply Forall_impl; [exact Hall|]. simpl. eauto.
Qed.

(** X3: when the parameter extraction returns a table, then in every sample
    folder with an entry ending in .params.txt the first such entry is a
    regular file none of whose lines is a bad number. *)
Theorem extract_tf_data_clean_files (root : list (string * node)) t (table : list (gmap string cell)) :
  extract_tf_data root = (t, Ok table) →
  Forall (λ sf : string * node, ∃ content, sf.2 = File content ∧
            Forall (λ raw, bad_number raw = false) (readlines content))
    (samples_with_params root).
Proof.
  intros (ds & HF & _)%extract_tf_data_Ok.
  apply Forall_forall. intros [folder f] Hin.
  destruct (Forall2_elem_of_l _ _ _ _ HF Hin) as (d & _ & Hd). cbn [fst snd] in *.
  destruct f as [content|]; [|done]. exists content. split; [done|].
  destruct (decide (Forall (λ raw, bad_number raw = false) (readlines content))) as [|Hex]; [done|].
  apply not_Forall_Exists in Hex; [|apply _].
  assert (Exists (λ raw, bad_number raw = true) (readlines content)) as Hex'.
  { eapply Exists_impl; [exact Hex|]. simpl. intros raw. by destruct (bad_number raw). }
  apply scan_lines_outcome with (data := {["library" := Str folder]}) in Hex'.
  cbn [read_params] in Hd. congruence.
Qed.

Lemma for_each_app_Ok {A S} (xs ys : list A) (body : S → A → io S) s t s' :
  for_each xs body s = (t, Ok s') →
  for_each (xs ++ ys) body s = ((t ++ (for_each ys body s').1), (for_each ys body s').2).
Proof.
  intros Hxs. rewrite for_each_app, Hxs. unfold mbind, io_bind.
  by destruct (for_each ys body s').
Qed.

(** X4: the first sample folder whose parameter file cannot be read stops
    the parameter extraction with that file's error: the folders after it are
    not visited, and only the diagnostics of the folders before it have been
    printed. *)
Theorem extract_tf_data_first_error (pre post : list (string * node)) (folder : string)
    (files : list (string * node)) (file_name : string) (f : node) (e : exn) :
  Forall (λ sf : string * node, ∃ d, read_params sf.1 sf.2 = Ok d) (samples_with_params pre) →
  first_with_suffix ".params.txt" files = Some (file_name, f) →
  read_params folder f = Raise e →
  extract_tf_data (pre ++ (folder, Dir files) :: post)
    = ((λ folder, Stdout (no_params_message folder)) <$> omap (unmatched ".params.txt") pre, Raise e).
Proof.
  intros Hpre Hf He. unfold extract_tf_data.
  destruct (for_each_tf_sample_complete pre [] Hpre) as (t & dl & Hloop).
  pose proof Hloop as (ds & _ & _ & ->)%for_each_tf_sample.
  rewrite (for_each_app_Ok _ _ _ _ _ _ Hloop), for_each_cons.
  cbv beta iota delta [tf_sample]. rewrite Hf, He.
  unfold lift, mbind, io_bind. cbn [fst snd]. by rewrite (right_id_L [] (++)).
Qed.

(** The record of a sample folder in the returned table. *)
Lemma extract_tf_data_row root t table folder files file_name f :
  extract_tf_data root = (t, Ok table) →
  (folder, Dir files) ∈ root →
  first_with_suffix ".params.txt" files = Some (file_name, f) →
  ∃ d, read_params folder f = Ok d ∧ frame_row tf_columns d ∈ table ∧
       frame_row tf_columns d !! "library" = Some (Str folder).
Proof.
  intros (ds & HF & Hp & _)%extract_tf_data_Ok Hin Hf.
  pose proof (elem_of_samples_with_params _ _ _ _ _ Hin Hf) as Hs.
  destruct (Forall2_elem_of_l _ _ _ _ HF Hs) as (d & Hd & Hread). cbn [fst snd] in Hread.
  exists d. split; [done|]. split.
  - rewrite Hp. apply list_elem_of_fmap. eauto.
  - by eapply frame_row_library.
Qed.

(** X5: in the table the parameter extraction returns, a label that no line
    of a sample's parameter file is recognized by has its field missing
    (NaN) in the sample's record. *)
Theorem extract_tf_data_absent_label (root : list (string * node)) t (table : list (gmap string cell))
    folder files file_name content (l : label) :
  extract_tf_data root = (t, Ok table) →
  (folder, Dir files) ∈ root →
  first_with_suffix ".params.txt" files = Some (file_name, File content) →
  Forall (λ raw, recognized (strip raw) ≠ Some l) (readlines content) →
  ∃ row, row ∈ table ∧ row !! "library" = Some (Str folder) ∧ row !! label_key l = Some NaN.
Proof.
  intros Hex Hin Hf Hnone.
  destruct (extract_tf_data_row _ _ _ _ _ _ _ Hex Hin Hf) as (d & Hd & Hrow & Hlib).
  exists (frame_row tf_columns d). split; [done|]. split; [done|].
  rewrite frame_row_lookup by apply label_key_column.
  cbn [read_params] in Hd. erewrite scan_lines_other; [|exact Hd|].
  - rewrite lookup_singleton_ne; [done|]. intros Heq. by apply (label_key_not_library l).
  - eapply Forall_impl; [exact Hnone|]. simpl.
    intros raw Hraw l' Hl' Heq. apply label_key_inj in Heq. congruence.
Qed.

(** X6: the field of a label in a sample's record is what the last line
    recognized by that label stores: the trimmed text between its first two
    colons for the gender, that text as a number (NaN for NA) for the other
    labels. Earlier lines with the same label are overwritten. *)
Theorem extract_tf_data_last_line (root : list (string * node)) t (table : list (gmap string cell))
    folder files file_name content before line after (l : label) :
  extract_tf_data root = (t, Ok table) →
  (folder, Dir files) ∈ root →
  first_with_suffix ".params.txt" files = Some (file_name, File content) →
  readlines content = before ++ line :: after →
  recognized (strip line) = Some l →
  Forall (λ later, recognized (strip later) ≠ Some l) after →
  ∃ row v x, value_of (strip line) = Ok v ∧ stored_value l v = Ok x ∧
    row ∈ table ∧ row !! "library" = Some (Str folder) ∧ row !! label_key l = Some x.
Proof.
  intros Hex Hin Hf Hlines Hr Hafter.
  destruct (extract_tf_data_row _ _ _ _ _ _ _ Hex Hin Hf) as (d & Hd & Hrow & Hlib).
  cbn [read_params] in Hd. rewrite Hlines, for_each_result_app in Hd.
  destruct (for_each_result before scan_line _) as [d1|]; [|done].
  cbn [mbind result_bind for_each_result] in Hd.
  destruct (scan_line d1 line) as [d2|] eqn:Hline; [|done]. cbn [mbind result_bind] in Hd.
  apply scan_line_Ok in Hline. rewrite Hr in Hline. destruct Hline as (v & x & Hv & Hx & ->).
  exists (frame_row tf_columns d), v, x. repeat (split; [done|]).
  rewrite frame_row_lookup by apply label_key_column.
  erewrite scan_lines_other; [|exact Hd|].
  - by rewrite lookup_insert_eq.
  - eapply Forall_impl; [exact Hafter|]. simpl.
    intros raw Hraw l' Hl' Heq. apply label_key_inj in Heq. congruence.
Qed.

Lemma frame_row_dom (names : list string) (data : gmap string cell) :
  dom (frame_row names data) = list_to_set names.
Proof.
  unfold frame_row. rewrite dom_list_to_map_L. f_equal.
  rewrite <- list_fmap_compose. by rewrite list_fmap_id.
Qed.

Lemma first_with_suffix_singleton suffix files file_name f :
  first_with_suffix suffix files = Some (file_name, f) →
  first_with_suffix suffix [(file_name, f)] = Some (file_name, f).
Proof.
  intros (_ & _ & _ & He & _)%first_with_suffix_Some. cbn [first_with_suffix]. by rewrite He.
Qed.

(** X8: of several entries ending in .params.txt in one sample folder only
    the first in listing order is used: the extraction is the same as if the
    folder held that entry alone. *)
Theorem extract_tf_data_first_match (pre post : list (string * node)) (folder : string)
    (files : list (string * node)) (file_name : string) (f : node) :
  first_with_suffix ".params.txt" files = Some (file_name, f) →
  extract_tf_data (pre ++ (folder, Dir files) :: post)
    = extract_tf_data (pre ++ (folder, Dir [(file_name, f)]) :: post).
Proof.
  intros Hf. unfold extract_tf_data. f_equal. apply for_each_replace. intros s'.
  cbv beta iota delta [tf_sample].
  by rewrite Hf, (first_with_suffix_singleton _ _ _ _ Hf).
Qed.

(** X9: an entry of the results root that is not a directory is ignored by
    both extractors and by both archive builders. *)
Theorem root_files_ignored (pre post : list (string * node)) (name : string) (content : file_content) :
  extract_tf_data (pre ++ (name, File content) :: post) = extract_tf_data (pre ++ post) ∧
  (∀ choice, extract_cna_data (pre ++ (name, File content) :: post) choice
               = extract_cna_data (pre ++ post) choice) ∧
  (∀ output_zip, create_params_zip (pre ++ (name, File content) :: post) output_zip
                   = create_params_zip (pre ++ post) output_zip) ∧
  (∀ output_zip, create_cna_seg_zip (pre ++ (name, File content) :: post) output_zip
                   = create_cna_seg_zip (pre ++ post) output_zip).
Proof.
  split; [|split; [|split]].
  - unfold extract_tf_data. by rewrite for_each_skip.
  - intros choice. unfold extract_cna_data. by rewrite for_each_skip.
  - intros output_zip. unfold create_params_zip. by rewrite for_each_skip.
  - intros output_zip. unfold create_cna_seg_zip. by rewrite for_each_skip.
Qed.

Lemma scan_lines_recognized lines (data : gmap string cell) :
  for_each_result lines scan_line data
    = for_each_result (filter (λ raw, is_Some (recognized (strip raw))) lines) scan_line data.
Proof.
  revert data. induction lines as [|raw lines IH]; intros data; [done|].
  rewrite filter_cons. destruct (decide (is_Some (recognized (strip raw)))) as [Hs|Hn].
  - cbn [for_each_result]. destruct (scan_line data raw); [apply IH|done].
  - cbn [for_each_result]. rewrite scan_line_recognized.
    destruct (recognized (strip raw)); [by destruct Hn|]. apply IH.
Qed.

(** X10: lines that none of the five labels occurs in are ignored: a
    parameter file reads the same with those lines taken out. *)
Theorem read_params_ignores_other_lines (folder : string) (content : file_content) :
  read_params folder (File content)
    = read_params folder
        (File {| readlines := filter (λ raw, is_Some (recognized (strip raw))) (readlines content);
                 read_csv := read_csv content |}).
Proof. cbn [read_params readlines]. apply scan_lines_recognized. Qed.

(** A run that returned a table, written with its trace and its table. *)
Lemma run_table {A} (m : io (list A)) :
  match m.2 with Ok _ => True | Raise _ => False end → m = (m.1, Ok (table_of m)).
Proof. destruct m as [t [table|e]]; [done|by intros []]. Qed.

(** ** The segmentation extractor as a pipeline *)

Lemma get_loc_elem df name :
  name ∈ columns df → ∃ i, get_loc df name = Ok i.
Proof. intros [i Hi]%index_of_elem. exists i. unfold get_loc. by rewrite Hi. Qed.

Lemma get_loc_not_elem df name :
  name ∉ columns df → get_loc df name = Raise KeyError.
Proof.
  intros Hn. unfold get_loc. destruct (index_of name (columns df)) as [i|] eqn:Hi; [|done].
  apply index_of_Some in Hi. exfalso. apply Hn. by eapply list_elem_of_lookup_2.
Qed.

Lemma extract_columns_missing df library column :
  ¬ ("chr" ∈ columns df ∧ "start" ∈ columns df ∧ "end" ∈ columns df) →
  extract_columns df library column = Raise KeyError.
Proof.
  intros Hn. unfold extract_columns.
  destruct (decide ("chr" ∈ columns df)) as [H1|H1];
    [|by rewrite (get_loc_not_elem df "chr")].
  destruct (get_loc_elem _ _ H1) as [i1 ->]. cbn [mbind result_bind].
  destruct (decide ("start" ∈ columns df)) as [H2|H2];
    [|by rewrite (get_loc_not_elem df "start")].
  destruct (get_loc_elem _ _ H2) as [i2 ->]. cbn [mbind result_bind].
  destruct (decide ("end" ∈ columns df)) as [H3|H3];
    [|by rewrite (get_loc_not_elem df "end")].
  by destruct Hn.
Qed.

Lemma extract_columns_present df library column :
  "chr" ∈ columns df → "start" ∈ columns df → "end" ∈ columns df → column ∈ columns df →
  ∃ extracted, extract_columns df library column = Ok extracted.
Proof.
  intros [i1 H1]%get_loc_elem [i2 H2]%get_loc_elem [i3 H3]%get_loc_elem [i4 H4]%get_loc_elem.
  unfold extract_columns. rewrite H1, H2, H3, H4. cbn. eauto.
Qed.

Lemma collect_singleton {A} (r : result (list A)) : collect [r] = r.
Proof. destruct r as [x|e]; cbn; [|done]. by rewrite (right_id_L [] (++)). Qed.

Lemma lift_nil_rows (data : list seg_row) :
  (mret data : io (list seg_row)) = lift (rows ← collect []; Ok (data ++ rows)).
Proof. cbn. by rewrite (right_id_L [] (++)). Qed.

(** One file of a sample folder, in full. *)
Lemma cna_file_result choice data entry :
  cna_file choice data entry
    = lift (rows ← collect (file_result choice <$> omap seg_file_of [entry]); Ok (data ++ rows)).
Proof.
  destruct entry as [file_name nd]. unfold cna_file.
  destruct (endswith file_name ".cna.seg") eqn:E; [destruct nd as [content|]|].
  - rewrite (omap_cons_Some _ _ (file_name, content))
      by (unfold seg_file_of; simpl; by rewrite E).
    change (file_result choice <$> (file_name, content) :: omap seg_file_of [])
      with [file_result choice (file_name, content)].
    rewrite collect_singleton. unfold file_result, tagged_rows. cbn [fst snd].
    rewrite lift_bind. destruct (read_csv content) as [df|e]; [|done].
    cbn [mbind result_bind]. case_bool_decide as Hc; [|exact (lift_nil_rows data)].
    rewrite lift_bind. case_bool_decide as Hk.
    + destruct Hk as (H1 & H2 & H3).
      destruct (extract_columns_present df (replace file_name ".cna.seg" EmptyString) _ H1 H2 H3 Hc)
        as [ex Hex].
      rewrite Hex. by apply extract_columns_Ok in Hex as ->.
    + by rewrite extract_columns_missing.
  - rewrite omap_cons_None by done. apply lift_nil_rows.
  - rewrite omap_cons_None by (unfold seg_file_of; simpl; rewrite E; by destruct nd).
    apply lift_nil_rows.
Qed.

Lemma collect_app {A} (rs1 rs2 : list (result (list A))) :
  collect (rs1 ++ rs2) = x ← collect rs1; y ← collect rs2; Ok (x ++ y).
Proof.
  induction rs1 as [|r rs1 IH]; cbn [app collect mbind result_bind].
  - by destruct (collect rs2).
  - destruct r as [x|e]; [|done]. cbn [mbind result_bind]. rewrite IH.
    destruct (collect rs1) as [x1|e1]; [|done]. cbn [mbind result_bind].
    destruct (collect rs2) as [x2|e2]; [|done]. cbn. by rewrite (assoc_L (++)).
Qed.

(** A loop whose steps are each a pure result is the pure result of their
    sequence. *)
Lemma for_each_collect {A B} (body : list B → A → io (list B)) (part : A → list (result (list B))) xs data :
  (∀ data x, body data x = lift (rows ← collect (part x); Ok (data ++ rows))) →
  for_each xs body data = lift (rows ← collect (xs ≫= part); Ok (data ++ rows)).
Proof.
  intros Hstep. revert data. induction xs as [|x xs IH]; intros data.
  - cbn. by rewrite (right_id_L [] (++)).
  - rewrite for_each_cons, Hstep. cbn [mbind list_bind]. rewrite collect_app.
    destruct (collect (part x)) as [rows1|e]; [|done]. cbn [mbind result_bind].
    rewrite lift_bind, IH.
    destruct (collect (xs ≫= part)) as [rows2|e]; [|done]. cbn. by rewrite (assoc_L (++)).
Qed.

Lemma for_each_cna_item_result choice root data :
  for_each root (cna_item choice) data
    = lift (rows ← collect (file_result choice <$> seg_files root); Ok (data ++ rows)).
Proof.
  rewrite (for_each_collect _
             (λ entry : string * node, file_result choice <$>
                match entry.2 with Dir files => omap seg_file_of files | File _ => [] end)).
  - f_equal. f_equal. f_equal. unfold seg_files.
    induction root as [|entry root IH]; [done|]. csimpl. by rewrite fmap_app, IH.
  - intros data' [item nd]. destruct nd as [c|files]; cbn [cna_item snd].
    + cbn. by rewrite (right_id_L [] (++)).
    + rewrite (for_each_collect _ (λ entry, file_result choice <$> omap seg_file_of [entry])).
      * f_equal. f_equal. f_equal. induction files as [|entry files IH]; [done|].
        cbn [mbind list_bind]. rewrite IH. rewrite <- fmap_app. f_equal.
        change (entry :: files) with ([entry] ++ files). by rewrite omap_app.
      * intros. apply cna_file_result.
Qed.

Lemma extract_cna_data_pipeline_aux root choice :
  extract_cna_data root choice
    = ([], rows ← collect (file_result choice <$> seg_files root); sort_values rows).
Proof.
  unfold extract_cna_data. rewrite for_each_cna_item_result, lift_bind.
  destruct (collect _) as [rows|e]; [|done]. done.
Qed.

(** X11: the segmentation extractor prints nothing and depends only on the
    regular files ending in .cna.seg of the sample folders, taken in listing
    order: each gives its tagged rows, no row when it lacks the log-ratio
    column, [KeyError] when it has that column but lacks chr, start or end,
    and the error of [pd.read_csv] when it cannot be read; the first error
    stops the extraction, otherwise all rows are sorted. *)
Theorem extract_cna_data_pipeline (root : list (string * node)) (choice : string) :
  extract_cna_data root choice
    = ([], rows ← collect (file_result choice <$> seg_files root); sort_values rows).
Proof. apply extract_cna_data_pipeline_aux. Qed.

End Properties.

(** * The properties on concrete inputs *)

#[local] Existing Instance toy_numbers.

Lemma normalize_idempotent_witness :
  normalize ".bam" (normalize ".bam" "S1.bam") = normalize ".bam" "S1.bam".
Proof. apply normalize_idempotent; [discriminate|reflexivity]. Defined.

Lemma extract_tf_data_records_witness :
  ∃ libs : list string,
    (λ r : gmap string cell, r !! "library") <$> table_of (extract_tf_data ex_root)
      = (λ s, Some (Str s)) <$> libs ∧
    libs ≡ₚ (filter (holds_file ".params.txt") ex_root).*1 ∧
    Sorted String.le libs.
Proof.
  apply (extract_tf_data_records ex_root (extract_tf_data ex_root).1).
  apply run_table. vm_compute. exact I.
Defined.

Lemma extract_cna_data_rows_witness :
  table_of (extract_cna_data ex_root "logR")
    ≡ₚ concat (file_rows (λ name, replace name ".cna.seg" EmptyString) "logR" <$> seg_files ex_root).
Proof.
  apply (extract_cna_data_rows ex_root "logR" (extract_cna_data ex_root "logR").1).
  vm_compute. reflexivity.
Defined.

(** C1 as stated, with the library obtained by stripping the suffix, fails:
    a file named a.cna.seg.cna.seg whose header has a.cna.seg.logR is
    skipped, because the extractor looks for a.logR. *)
Lemma extract_cna_data_rows_suffix_counterexample :
  ¬ (∀ (root : list (string * node)) (choice : string) t (table : list seg_row),
       extract_cna_data root choice = (t, Ok table) →
       table ≡ₚ concat (file_rows (λ name, removesuffix name ".cna.seg") choice <$> seg_files root)).
Proof.
  intros Hclaim.
  specialize (Hclaim twice_root "logR" [] [] eq_refl).
  apply Permutation_length in Hclaim. vm_compute in Hclaim. discriminate.
Defined.

(** C1: on the file a.cna.seg.cna.seg, whose header has the column
    a.cna.seg.logR that the suffix-stripped name a.cna.seg asks for, the
    extractor returns an empty table: it derives the library a, finds no
    column a.logR and drops the file, while the claim puts the file's row,
    tagged a.cna.seg, in the table. *)
Lemma extract_cna_data_drops_twice_suffixed :
  extract_cna_data twice_root "logR" = ([], Ok []) ∧
  replace "a.cna.seg.cna.seg" ".cna.seg" EmptyString = "a" ∧
  removesuffix "a.cna.seg.cna.seg" ".cna.seg" = "a.cna.seg" ∧
  concat (file_rows (λ name, removesuffix name ".cna.seg") "logR" <$> seg_files twice_root)
    = [{| library := "a.cna.seg"; chr := Str "chr1"; start := Num (Some 0%Z);
          end_ := Num (Some 1000%Z); logR := Num (Some (-5)%Z) |}].
Proof. repeat split; vm_compute; reflexivity. Qed.

Lemma pivot_consistent_witness :
  ∃ m, pivot ex_long ≫= reset_index = Ok m ∧
    (∀ r, r ∈ ex_long →
       ∃ row, filter (λ row', take 3 row' = [chr r; start r; end_ r]) (rows m) = [row] ∧
              at_column m row (library r) = logR r) ∧
    (∀ row lib, row ∈ rows m → lib ∈ library <$> ex_long →
       (∀ r, r ∈ ex_long → pivot_key r ≠ ((row !!! 0%nat, row !!! 1%nat, row !!! 2%nat), lib)) →
       at_column m row lib = NaN).
Proof.
  apply pivot_consistent.
  - apply (bool_decide_unpack _). vm_compute. exact I.
  - apply (bool_decide_unpack _). vm_compute. exact I.
Defined.

(** C2 as stated fails where a library is named like an index column: the
    keys are unique, yet the pivot step raises and produces no matrix. *)
Lemma pivot_consistent_reserved_counterexample :
  ¬ (∀ table : list seg_row, NoDup (pivot_key <$> table) →
       ∃ m, pivot table ≫= reset_index = Ok m ∧
         ∀ r, r ∈ table →
           ∃ row, filter (λ row', take 3 row' = [chr r; start r; end_ r]) (rows m) = [row] ∧
                  at_column m row (library r) = logR r).
Proof.
  intros Hclaim. destruct (Hclaim chr_long) as (m & Hm & _).
  - apply (bool_decide_unpack _). vm_compute. exact I.
  - vm_compute in Hm. discriminate.
Defined.

Lemma extract_tf_data_NA_witness :
  (∃ row, row ∈ table_of (extract_tf_data ex_root) ∧ row !! "library" = Some (Str "S2") ∧
          row !! "tumor_fraction" = Some NaN) ∧
  (∃ row, row ∈ table_of (extract_tf_data ex_root) ∧ row !! "library" = Some (Str "S2") ∧
          row !! "gender" = Some (Str "NA")).
Proof.
  split.
  - apply (extract_tf_data_NA ex_root (extract_tf_data ex_root).1 _ "S2" ex_S2_files
             "S2.params.txt" ex_S2_params [] "Tumor Fraction: NA" ["Ploidy: 21"; "Gender: NA"]
             TumorFraction).
    + apply run_table. vm_compute. exact I.
    + unfold ex_root. left.
    + reflexivity.
    + reflexivity.
    + reflexivity.
    + reflexivity.
    + repeat constructor; vm_compute; discriminate.
  - apply (extract_tf_data_NA ex_root (extract_tf_data ex_root).1 _ "S2" ex_S2_files
             "S2.params.txt" ex_S2_params ["Tumor Fraction: NA"; "Ploidy: 21"] "Gender: NA" []
             Gender).
    + apply run_table. vm_compute. exact I.
    + unfold ex_root. left.
    + reflexivity.
    + reflexivity.
    + reflexivity.
    + reflexivity.
    + constructor.
Defined.

(** C4 as stated, for all five fields, fails on the gender: its literal NA
    is recorded as the string NA. *)
Lemma extract_tf_data_NA_gender_counterexample :
  ¬ (∀ (root : list (string * node)) t (table : list (gmap string cell))
       folder files file_name content before line after (l : label),
       extract_tf_data root = (t, Ok table) →
       (folder, Dir files) ∈ root →
       first_with_suffix ".params.txt" files = Some (file_name, File content) →
       readlines content = before ++ line :: after →
       recognized (strip line) = Some l →
       value_of (strip line) = Ok "NA" →
       ∃ row, row ∈ table ∧ row !! "library" = Some (Str folder) ∧
              row !! label_key l = Some NaN).
Proof.
  intros Hclaim.
  destruct (Hclaim ex_root (extract_tf_data ex_root).1 (table_of (extract_tf_data ex_root))
              "S2" ex_S2_files "S2.params.txt" ex_S2_params
              ["Tumor Fraction: NA"; "Ploidy: 21"] "Gender: NA" [] Gender)
    as (row & Hin & Hlib & Hg).
  - apply run_table. vm_compute. exact I.
  - unfold ex_root. left.
  - reflexivity.
  - reflexivity.
  - reflexivity.
  - reflexivity.
  - assert (Forall (λ r : gmap string cell, r !! "library" = Some (Str "S2") → r !! "gender" ≠ Some NaN)
              (table_of (extract_tf_data ex_root))) as Hall.
    { apply (bool_decide_unpack _). vm_compute. exact I. }
    rewrite Forall_forall in Hall. by apply (Hall row Hin Hlib).
Defined.

Lemma missing_file_nonfatal_witness :
  ((extract_tf_data ([("S2", Dir ex_S2_files)] ++ ("S3", Dir []) :: [("S1.bam", Dir ex_S1_files)])).2
     = (extract_tf_data ([("S2", Dir ex_S2_files)] ++ [("S1.bam", Dir ex_S1_files)])).2 ∧
   Stdout (no_params_message "S3")
     ∈ (extract_tf_data ([("S2", Dir ex_S2_files)] ++ ("S3", Dir []) :: [("S1.bam", Dir ex_S1_files)])).1) ∧
  (extract_cna_data ([("S2", Dir ex_S2_files)] ++ ("S3", Dir []) :: [("S1.bam", Dir ex_S1_files)]) "logR"
     = extract_cna_data ([("S2", Dir ex_S2_files)] ++ [("S1.bam", Dir ex_S1_files)]) "logR" ∧
   (extract_cna_data ([("S2", Dir ex_S2_files)] ++ ("S3", Dir []) :: [("S1.bam", Dir ex_S1_files)]) "logR").1 = []).
Proof.
  destruct (missing_file_nonfatal [("S2", Dir ex_S2_files)] [("S1.bam", Dir ex_S1_files)] "S3" [])
    as [Htf Hcna].
  split.
  - destruct (Htf eq_refl) as [Hres Hprint]. split; [exact Hres|].
    apply Hprint. repeat constructor. vm_compute. eauto.
  - apply (Hcna eq_refl "logR").
Defined.

(** C5 as stated fails for the segmentation extraction: a folder without a
    segmentation file gets no diagnostic from it. *)
Lemma missing_seg_file_diagnostic_counterexample :
  ¬ (∀ (pre post : list (string * node)) folder files choice,
       first_with_suffix ".cna.seg" files = None →
       ∃ msg, Stdout msg ∈ (extract_cna_data (pre ++ (folder, Dir files) :: post) choice).1).
Proof.
  intros Hclaim. destruct (Hclaim [] [] "S3" [] "logR" eq_refl) as [msg Hmsg].
  vm_compute in Hmsg. by apply elem_of_nil in Hmsg.
Defined.

Lemma missing_column_skipped_witness :
  extract_cna_data ([("S2", Dir ex_S2_files)] ++ ("S3", Dir ([] ++ ("S3.cna.seg", File ex_S3_seg) :: [])) :: []) "logR"
    = extract_cna_data ([("S2", Dir ex_S2_files)] ++ ("S3", Dir ([] ++ [])) :: []) "logR" ∧
  (extract_cna_data ([("S2", Dir ex_S2_files)] ++ ("S3", Dir ([] ++ ("S3.cna.seg", File ex_S3_seg) :: [])) :: []) "logR").1 = [].
Proof.
  eapply missing_column_skipped.
  - reflexivity.
  - reflexivity.
  - apply (bool_decide_unpack _). vm_compute. exact I.
Defined.

Lemma scan_line_value_witness :
  ∃ t, after_colon (strip "  Tumor Fraction:	12 ") = Some t ∧
    (after_colon t = None → before_colon t = t) ∧
    let v := strip (before_colon t) in
    (TumorFraction = Gender → scan_line ∅ "  Tumor Fraction:	12 " = Ok (<["gender" := Str v]> ∅)) ∧
    (TumorFraction ≠ Gender → v = "NA" →
       scan_line ∅ "  Tumor Fraction:	12 " = Ok (<[label_key TumorFraction := NaN]> ∅)) ∧
    (TumorFraction ≠ Gender → v ≠ "NA" → ∀ x, float v = Some x →
       scan_line ∅ "  Tumor Fraction:	12 " = Ok (<[label_key TumorFraction := Num x]> ∅)) ∧
    (TumorFraction ≠ Gender → v ≠ "NA" → float v = None →
       scan_line ∅ "  Tumor Fraction:	12 " = Raise ValueError).
Proof. apply scan_line_value. reflexivity. Defined.

(** C7 as stated fails when the value itself contains a colon: only the
    text up to the second colon is kept. *)
Lemma scan_line_second_colon_counterexample :
  ¬ (∀ (data : gmap string cell) raw t,
       recognized (strip raw) = Some Gender →
       after_colon (strip raw) = Some t →
       scan_line data raw = Ok (<["gender" := Str (strip t)]> data)).
Proof.
  intros Hclaim. specialize (Hclaim ∅ "Gender: fe:male" " fe:male" eq_refl eq_refl).
  apply (f_equal (λ r, match r with Ok d => d !! "gender" | Raise _ => None end)) in Hclaim.
  vm_compute in Hclaim. discriminate.
Defined.

Lemma pivot_duplicate_keys_witness :
  ∃ t, main dup_args = (t, Raise ValueError) ∧ Forall (λ e, is_write e = false) t.
Proof.
  destruct (pivot_duplicate_keys dup_args
              (extract_tf_data dup_root).1 (table_of (extract_tf_data dup_root))
              (extract_cna_data dup_root "logR").1 (table_of (extract_cna_data dup_root "logR"))
              (extract_cna_data dup_root "logR_Copy_Number").1
              (table_of (extract_cna_data dup_root "logR_Copy_Number")))
    as (_ & Hmain & _).
  - vm_compute. reflexivity.
  - vm_compute. reflexivity.
  - vm_compute. reflexivity.
  - apply Hmain. left. apply (bool_decide_unpack _). vm_compute. exact I.
Defined.

(** C10 as stated fails for the pivot step on a table whose only library is
    named start: the keys are unique and reset_index raises. *)
Lemma pivot_unique_keys_reserved_counterexample :
  ¬ (∀ table : list seg_row, NoDup (pivot_key <$> table) →
       ∃ m, pivot table ≫= reset_index = Ok m).
Proof.
  intros Hclaim. destruct (Hclaim start_long) as [m Hm].
  - apply (bool_decide_unpack _). vm_compute. exact I.
  - vm_compute in Hm. discriminate.
Defined.

Lemma read_params_outcome_witness :
  (∃ data, read_params "S2" (File ex_S2_params) = Ok data) ∧
  read_params "S1" (text_file ["Gender: male"; "Tumor Fraction: unknown"]) = Raise ValueError.
Proof.
  split.
  - apply (read_params_outcome "S2" ex_S2_params). repeat constructor.
  - apply (read_params_outcome "S1"
             {| readlines := ["Gender: male"; "Tumor Fraction: unknown"]; read_csv := Raise ParserError |}).
    right. left. reflexivity.
Defined.

Lemma extract_tf_data_first_error_witness :
  extract_tf_data ([("S3", Dir [])]
                   ++ ("S1", Dir [("S1.params.txt", text_file ["Gender: male"; "Tumor Fraction: unknown"])])
                   :: [("S2", Dir ex_S2_files)])
    = ((λ folder, Stdout (no_params_message folder)) <$> omap (unmatched ".params.txt") [("S3", Dir [])],
       Raise ValueError).
Proof.
  eapply extract_tf_data_first_error.
  - constructor.
  - reflexivity.
  - vm_compute. reflexivity.
Defined.

Lemma extract_tf_data_absent_label_witness :
  ∃ row, row ∈ table_of (extract_tf_data ex_root) ∧ row !! "library" = Some (Str "S2") ∧
         row !! label_key ChrYCoverage = Some NaN.
Proof.
  apply (extract_tf_data_absent_label ex_root (extract_tf_data ex_root).1 _ "S2" ex_S2_files
           "S2.params.txt" ex_S2_params ChrYCoverage).
  - apply run_table. vm_compute. exact I.
  - unfold ex_root. left.
  - reflexivity.
  - repeat constructor; vm_compute; discriminate.
Defined.

Lemma extract_tf_data_last_line_witness :
  ∃ row v x, value_of (strip "Ploidy: 2") = Ok v ∧ stored_value Ploidy v = Ok x ∧
    row ∈ table_of (extract_tf_data two_params_root) ∧ row !! "library" = Some (Str "S5") ∧
    row !! label_key Ploidy = Some x.
Proof.
  apply (extract_tf_data_last_line two_params_root (extract_tf_data two_params_root).1 _
           "S5" two_params_files "S5.params.txt"
           {| readlines := ["Ploidy: 3"; "Gender: male"; "Ploidy: 2"; "Tumor Fraction: 7"];
              read_csv := Raise ParserError |}
           ["Ploidy: 3"; "Gender: male"] "Ploidy: 2" ["Tumor Fraction: 7"] Ploidy).
  - apply run_table. vm_compute. exact I.
  - unfold two_params_root. right. left.
  - reflexivity.
  - reflexivity.
  - reflexivity.
  - repeat constructor; vm_compute; discriminate.
Defined.

Lemma extract_tf_data_clean_files_witness :
  Forall (λ sf : string * node, ∃ content, sf.2 = File content ∧
            Forall (λ raw, bad_number raw = false) (readlines content))
    (samples_with_params two_params_root).
Proof.
  apply (extract_tf_data_clean_files two_params_root (extract_tf_data two_params_root).1
           (table_of (extract_tf_data two_params_root))).
  apply run_table. vm_compute. exact I.
Defined.

Lemma extract_tf_data_first_match_witness :
  extract_tf_data ([("S2", Dir ex_S2_files)] ++ ("S5", Dir two_params_files) :: [])
    = extract_tf_data ([("S2", Dir ex_S2_files)]
        ++ ("S5", Dir [("S5.params.txt",
              text_file ["Ploidy: 3"; "Gender: male"; "Ploidy: 2"; "Tumor Fraction: 7"])]) :: []).
Proof. apply extract_tf_data_first_match. reflexivity. Defined.

(* end of the concrete inputs *)
